(** * EcoWebApp: station import and coordinate clustering

    A shallow embedding of the algorithmic core of the repository:
    - [database/import_data.py]: [safe_parse_date], [extract_coordinates]
      and the merge transaction of [import_data];
    - [backend/main.py]: [simple_kmeans], the clustering part of
      [api_get_stats], the date text of [api_get_stations] and the range
      checks of the admin endpoints.

    Python values decoded from the feeds are the inductive [pyval]; an
    exception is a value of [exn] carried by [result]; numpy's float64 and
    Python's float are Rocq's primitive binary64 floats. *)

From Stdlib Require Import ZArith List String Ascii Bool Lia Floats.
Import ListNotations.

Set Warnings "-register-all,-inexact-float".

Local Open Scope string_scope.
Local Open Scope Z_scope.

(** ** Python values and exceptions *)

Module Py.

(** What [requests.Response.json()] can return. A [PDict] is an association
    list; [get] reads the first binding of a key. *)
Inductive pyval : Type :=
| PNone
| PBool (b : bool)
| PInt (n : Z)
| PFloat (x : float)
| PStr (s : string)
| PList (l : list pyval)
| PDict (d : list (string * pyval)).

Inductive exn : Type :=
| AttributeError
| TypeError
| ValueError
| IndexError
| UnboundLocalError
| DBAPIError.

Inductive result (A : Type) : Type :=
| Ok (a : A)
| Raise (e : exn).
Arguments Ok {A} a.
Arguments Raise {A} e.

Definition bind {A B} (r : result A) (f : A -> result B) : result B :=
  match r with
  | Ok a => f a
  | Raise e => Raise e
  end.

Notation "x <- r ;; k" := (bind r (fun x => k))
  (at level 61, r at next level, right associativity).
Notation "' p <- r ;; k" := (bind r (fun p => k))
  (at level 61, p pattern, r at next level, right associativity).

(** Python truth value, as tested by [not v]. *)
Definition truthy (v : pyval) : bool :=
  match v with
  | PNone => false
  | PBool b => b
  | PInt n => negb (n =? 0)
  | PFloat x => negb (PrimFloat.eqb x 0%float)
  | PStr s => negb (s =? "")%string
  | PList l => match l with [] => false | _ :: _ => true end
  | PDict d => match d with [] => false | _ :: _ => true end
  end.

Fixpoint lookup (d : list (string * pyval)) (k : string) : option pyval :=
  match d with
  | [] => None
  | (k', v) :: d' => if (k' =? k)%string then Some v else lookup d' k
  end.

(** [v.get(k, dflt)]: only a dict has the method. *)
Definition get (v : pyval) (k : string) (dflt : pyval) : result pyval :=
  match v with
  | PDict d => Ok (match lookup d k with Some x => x | None => dflt end)
  | _ => Raise AttributeError
  end.

Definition is_ok {A} (r : result A) : bool :=
  match r with Ok _ => true | Raise _ => false end.

End Py.
Import Py.

(** ** A backtracking matcher for the regular expressions of the source

    Python's [re] explores alternatives left to right and quantifiers
    greedily, and keeps the first way that lets the rest of the pattern
    succeed. [rmatch] has that order: the continuation [k] is the rest of the
    pattern. Quantifiers only ever apply to a character class in the patterns
    modelled here. *)

Module Re.

Inductive regex : Type :=
| Eps
| Cls (p : ascii -> bool)
| Star (p : ascii -> bool)
| Seq (r1 r2 : regex)
| Alt (r1 r2 : regex)
| Opt (r : regex)
| Grp (name : string) (r : regex).

Definition captures := list (string * string).
Definition cont := string -> captures -> option (string * captures).

Fixpoint take (n : nat) (s : string) : string :=
  match n, s with
  | S n', String c s' => String c (take n' s')
  | _, _ => EmptyString
  end.

(** The text consumed between [s] and its suffix [s']. *)
Definition consumed (s s' : string) : string :=
  take (String.length s - String.length s') s.

Fixpoint star_match (p : ascii -> bool) (s : string) (caps : captures)
  (k : cont) : option (string * captures) :=
  match s with
  | String c s' =>
      if p c then
        match star_match p s' caps k with
        | Some x => Some x
        | None => k s caps
        end
      else k s caps
  | EmptyString => k s caps
  end.

Fixpoint rmatch (r : regex) (s : string) (caps : captures) (k : cont)
  : option (string * captures) :=
  match r with
  | Eps => k s caps
  | Cls p =>
      match s with
      | String c s' => if p c then k s' caps else None
      | EmptyString => None
      end
  | Star p => star_match p s caps k
  | Seq r1 r2 => rmatch r1 s caps (fun s' c' => rmatch r2 s' c' k)
  | Alt r1 r2 =>
      match rmatch r1 s caps k with
      | Some x => Some x
      | None => rmatch r2 s caps k
      end
  | Opt r1 =>
      match rmatch r1 s caps k with
      | Some x => Some x
      | None => k s caps
      end
  | Grp name r1 =>
      rmatch r1 s caps (fun s' c' => k s' ((name, consumed s s') :: c'))
  end.

(** [re.match(r, s)]: anchored at the start, free at the end. Returns the
    unread rest and the groups. *)
Definition re_match (r : regex) (s : string) : option (string * captures) :=
  rmatch r s [] (fun s' c' => Some (s', c')).

(** [re.findall(r, s)] for a pattern without groups that matches no empty
    text: the texts of the leftmost non-overlapping matches. [skip] counts
    the characters of the current match still to be passed over. *)
Fixpoint findall_from (r : regex) (skip : nat) (s : string) : list string :=
  match s with
  | EmptyString => []
  | String _ s' =>
      match skip with
      | S n => findall_from r n s'
      | O =>
          match re_match r s with
          | Some (rest, _) =>
              let m := consumed s rest in
              m :: findall_from r (String.length m - 1) s'
          | None => findall_from r 0 s'
          end
      end
  end.

Definition findall (r : regex) (s : string) : list string :=
  findall_from r 0 s.

Definition chr (c : ascii) : regex := Cls (Ascii.eqb c).
Definition plus (p : ascii -> bool) : regex := Seq (Cls p) (Star p).

Definition in_range (lo hi : ascii) (c : ascii) : bool :=
  (nat_of_ascii lo <=? nat_of_ascii c)%nat && (nat_of_ascii c <=? nat_of_ascii hi)%nat.

(** [\d] on ASCII text, where it is the ten digits [0] to [9]. On a text
    with other characters Python's [\d], [int] and [float] also take the
    decimal digits of other scripts, which a [string] of this embedding does
    not tell apart: a property that rests on which texts a pattern matches
    is stated for the texts that satisfy [is_ascii]. *)
Definition digit : ascii -> bool := in_range "0" "9".

Fixpoint capture (c : captures) (name : string) : option string :=
  match c with
  | [] => None
  | (n, v) :: c' => if (n =? name)%string then Some v else capture c' name
  end.

Fixpoint span (p : ascii -> bool) (s : string) : string * string :=
  match s with
  | String c s' =>
      if p c then let '(a, b) := span p s' in (String c a, b)
      else (EmptyString, s)
  | EmptyString => (EmptyString, EmptyString)
  end.

Fixpoint all_of (p : ascii -> bool) (s : string) : bool :=
  match s with
  | String c s' => p c && all_of p s'
  | EmptyString => true
  end.

(** A text all of whose characters are ASCII. *)
Definition is_ascii (s : string) : bool :=
  all_of (fun c => (nat_of_ascii c <? 128)%nat) s.

Definition digit_val (c : ascii) : Z := Z.of_nat (nat_of_ascii c) - 48.

Fixpoint dec_value (acc : Z) (s : string) : Z :=
  match s with
  | String c s' => dec_value (10 * acc + digit_val c) s'
  | EmptyString => acc
  end.

End Re.
Import Re.

(** ** Field normalizer: coordinates *)

Module Coordinates.

(** The pattern of [extract_coordinates]: [[-+]?\d*\.\d+|\d+]. *)
Definition sign (c : ascii) : bool := Ascii.eqb c "-" || Ascii.eqb c "+".

Definition decimal_tail : regex :=
  Seq (Star digit) (Seq (chr ".") (plus digit)).

Definition NUM : regex :=
  Alt (Seq (Opt (Cls sign)) decimal_tail) (plus digit).

(** The binary64 nearest (ties to even) to [(-1)^sgn * m / 10^d]: what
    [float] makes of the decimal literal with digits [m], [d] of them after
    the point. *)
Definition float_of_decimal (sgn : bool) (m : Z) (d : nat) : float :=
  SF2Prim
    match m with
    | Zpos p =>
        SFdiv prec emax (S754_finite sgn p 0)
              (S754_finite false (Z.to_pos (10 ^ Z.of_nat d)) 0)
    | _ => S754_zero sgn
    end.

(** [float(s)] on the literals [sign? digits* ( . digits* )?] holding a digit.
    Python's [float] accepts more (exponents, [inf], [nan], blanks,
    underscores); on those this model raises, so a proof that it returns is a
    proof that Python returns. [float_body] reads what follows the sign. *)
Definition float_body (sgn : bool) (body : string) : result float :=
  let '(ip, r1) := span digit body in
  let fp :=
    match r1 with
    | EmptyString => Some EmptyString
    | String c r2 =>
        if Ascii.eqb c "." && all_of digit r2 then Some r2 else None
    end in
  match fp with
  | None => Raise ValueError
  | Some f =>
      if (String.length ip + String.length f =? 0)%nat then Raise ValueError
      else Ok (float_of_decimal sgn (dec_value 0 (ip ++ f)) (String.length f))
  end.

Definition py_float (s : string) : result float :=
  match s with
  | String c r =>
      if Ascii.eqb c "-" then float_body true r
      else if Ascii.eqb c "+" then float_body false r
      else float_body false s
  | EmptyString => float_body false s
  end.

(** [lon, lat = map(float, nums[:2])]. *)
Definition unpack_two_floats (nums : list string) : result (float * float) :=
  match nums with
  | [a; b] => lon <- py_float a ;; lat <- py_float b ;; Ok (lon, lat)
  | _ => Raise ValueError
  end.

Definition extract_coordinates (value : pyval) : result (pyval * pyval) :=
  if negb (truthy value) then Ok (PNone, PNone)
  else
    let structured :=
      match value with
      | PDict d =>
          match lookup d "coordinates" with
          | Some (PList coords) =>
              if (2 <=? List.length coords)%nat
              then Some (nth 1 coords PNone, nth 0 coords PNone)
              else None
          | _ => None
          end
      | _ => None
      end in
    match structured with
    | Some r => Ok r
    | None =>
        match value with
        | PStr s =>
            let nums := findall NUM s in
            if (2 <=? List.length nums)%nat then
              '(lon, lat) <- unpack_two_floats (firstn 2 nums) ;;
              Ok (PFloat lat, PFloat lon)
            else Ok (PNone, PNone)
        | _ => Ok (PNone, PNone)
        end
    end.

(** The same pattern read deterministically at the head of [s]: the
    matched text and the rest. [re_match_NUM] below shows that the
    backtracking matcher finds exactly this. *)
Definition num_at (s : string) : option (string * string) :=
  match s with
  | EmptyString => None
  | String c r =>
      if sign c then
        let '(ip, r1) := span digit r in
        match r1 with
        | String c1 r2 =>
            let '(fp, r3) := span digit r2 in
            if Ascii.eqb "." c1 && negb (fp =? "")%string
            then Some (String c (ip ++ String c1 fp), r3)
            else None
        | EmptyString => None
        end
      else
        let '(ip, r1) := span digit s in
        let whole :=
          if negb (ip =? "")%string then Some (ip, r1) else None in
        match r1 with
        | String c1 r2 =>
            let '(fp, r3) := span digit r2 in
            if Ascii.eqb "." c1 && negb (fp =? "")%string
            then Some (ip ++ String c1 fp, r3)
            else whole
        | EmptyString => whole
        end
  end.

End Coordinates.
Import Coordinates.

(** ** Field normalizer: dates *)

Module Dates.

Record date : Type := mkdate { year : Z; month : Z; day : Z }.

(** The directives used by the source's formats and their patterns, as
    [_strptime.TimeRE] defines them. *)
Inductive directive : Type :=
| D_d
| D_m
| D_Y
| Lit (c : ascii).

Definition re_d : regex :=
  Grp "d"
    (Alt (Seq (chr "3") (Cls (in_range "0" "1")))
    (Alt (Seq (Cls (in_range "1" "2")) (Cls digit))
    (Alt (Seq (chr "0") (Cls (in_range "1" "9")))
    (Alt (Cls (in_range "1" "9"))
         (Seq (chr " ") (Cls (in_range "1" "9"))))))).

Definition re_m : regex :=
  Grp "m"
    (Alt (Seq (chr "1") (Cls (in_range "0" "2")))
    (Alt (Seq (chr "0") (Cls (in_range "1" "9")))
         (Cls (in_range "1" "9")))).

Definition re_Y : regex :=
  Grp "Y" (Seq (Cls digit) (Seq (Cls digit) (Seq (Cls digit) (Cls digit)))).

Definition directive_re (d : directive) : regex :=
  match d with
  | D_d => re_d
  | D_m => re_m
  | D_Y => re_Y
  | Lit c => chr c
  end.

Fixpoint pattern (f : list directive) : regex :=
  match f with
  | [] => Eps
  | d :: f' => Seq (directive_re d) (pattern f')
  end.

(** ["%d.%m.%Y"] and ["%Y-%m-%d"]. *)
Definition fmt_dmy : list directive := [D_d; Lit "."; D_m; Lit "."; D_Y].
Definition fmt_ymd : list directive := [D_Y; Lit "-"; D_m; Lit "-"; D_d].

(** [int(s)] on a captured group: blanks are stripped. *)
Fixpoint int_of (s : string) : Z :=
  match s with
  | String c s' => if Ascii.eqb c " " then int_of s' else dec_value 0 s
  | EmptyString => 0
  end.

Definition is_leap (y : Z) : bool :=
  ((y mod 4 =? 0) && negb (y mod 100 =? 0)) || (y mod 400 =? 0).

Definition days_in_month (y m : Z) : Z :=
  if m =? 2 then (if is_leap y then 29 else 28)
  else if (m =? 4) || (m =? 6) || (m =? 9) || (m =? 11) then 30
  else 31.

(** [datetime.date(y, m, d)]. *)
Definition make_date (y m d : Z) : result date :=
  if (1 <=? y) && (y <=? 9999) && (1 <=? m) && (m <=? 12)
     && (1 <=? d) && (d <=? days_in_month y m)
  then Ok (mkdate y m d)
  else Raise ValueError.

Definition group_or (c : captures) (name : string) (dflt : Z) : Z :=
  match capture c name with
  | Some v => int_of v
  | None => dflt
  end.

(** [datetime.strptime(data, fmt).date()]. *)
Definition strptime (data : pyval) (f : list directive) : result date :=
  match data with
  | PStr s =>
      match re_match (pattern f) s with
      | None => Raise ValueError
      | Some (rest, caps) =>
          if negb (rest =? "")%string then Raise ValueError
          else make_date (group_or caps "Y" 1900) (group_or caps "m" 1)
                         (group_or caps "d" 1)
      end
  | _ => Raise TypeError
  end.

(** Lines 30 to 38, with the library call they make as [parse]:
    [parse date_str fmt] is [datetime.strptime(date_str, fmt).date()]. *)
Section Parser.

Variable parse : pyval -> list directive -> result date.

(** The loop: any exception moves on to the next format. *)
Fixpoint try_formats (date_str : pyval) (fmts : list (list directive))
  : result (option date) :=
  match fmts with
  | [] => Ok None
  | f :: fmts' =>
      match parse date_str f with
      | Ok d => Ok (Some d)
      | Raise _ => try_formats date_str fmts'
      end
  end.

Definition safe_parse_date_with (date_str : pyval) : result (option date) :=
  if negb (truthy date_str) then Ok None
  else try_formats date_str [fmt_dmy; fmt_ymd].

End Parser.

(** [safe_parse_date] on the texts of this embedding. *)
Definition safe_parse_date (date_str : pyval) : result (option date) :=
  safe_parse_date_with strptime date_str.

End Dates.
Import Dates.

(** ** The station catalog and the merge transaction of [import_data] *)

Module Catalog.

Definition timestamp := Z.

(** The bound parameters of [upsert_sql], as the [params] dict holds them. *)
Record Params : Type := mkParams {
  p_name : pyval;
  p_admarea : pyval;
  p_district : pyval;
  p_address : pyval;
  p_owner : pyval;
  p_test_date : option date;
  p_eco_status : bool;
  p_latitude : pyval;
  p_longitude : pyval
}.

(** Modelled from the spec: the [stations] table ([schema.sql] is not among
    the sources): a surrogate [id], the natural key [(name, address)] as
    text, the descriptive and geographic columns, and the two timestamps. A
    column keeps the value that was bound to it. *)
Record Station : Type := mkStation {
  id : Z;
  name : string;
  admarea : pyval;
  district : pyval;
  address : string;
  owner : pyval;
  test_date : option date;
  eco_status : bool;
  latitude : pyval;
  longitude : pyval;
  created_at : timestamp;
  updated_at : timestamp
}.

(** The store as a connection sees it: the rows in insertion order and the
    next value of the id sequence. The sequence is not transactional: a
    value drawn from it is never given back. *)
Record db : Type := mkdb {
  stations : list Station;
  next_id : Z
}.

Definition key := (string * string)%type.

Definition key_eqb (k1 k2 : key) : bool :=
  (fst k1 =? fst k2)%string && (snd k1 =? snd k2)%string.

Definition station_key (r : Station) : key := (name r, address r).

Definition has_key (k : key) (r : Station) : bool := key_eqb (station_key r) k.

(** [SELECT 1 FROM stations WHERE name = :name AND address = :address]. *)
Definition select_exists (rows : list Station) (k : key) : bool :=
  existsb (has_key k) rows.

(** The [DO UPDATE SET ...] clause on one conflicting row. *)
Definition do_update (now : timestamp) (p : Params) (r : Station) : Station :=
  mkStation (id r) (name r) (p_admarea p) (p_district p) (address r)
            (p_owner p) (p_test_date p) (p_eco_status p)
            (p_latitude p) (p_longitude p) (created_at r) now.

(** The [INSERT ... VALUES ...] row. *)
Definition new_row (now : timestamp) (i : Z) (k : key) (p : Params) : Station :=
  mkStation i (fst k) (p_admarea p) (p_district p) (snd k)
            (p_owner p) (p_test_date p) (p_eco_status p)
            (p_latitude p) (p_longitude p) now now.

(** [upsert_sql]: insert, or on a conflict on [(name, address)] update the
    conflicting row in place. The statement names no [id], so the column
    default draws the next sequence value for the proposed row before the
    conflict is seen: the sequence advances on every execution, also when
    the statement ends as an update and the value is dropped. *)
Definition upsert (now : timestamp) (k : key) (p : Params) (d : db) : db :=
  if select_exists (stations d) k
  then mkdb (map (fun r => if has_key k r then do_update now p r else r)
                 (stations d))
            (next_id d + 1)
  else mkdb (stations d ++ [new_row now (next_id d) k p]) (next_id d + 1).

(** The natural key as the store compares it: both parameters must be text
    for [name = :name AND address = :address] to be a valid statement. *)
Definition bind_key (p : Params) : result key :=
  match p_name p, p_address p with
  | PStr n, PStr a => Ok (n, a)
  | _, _ => Raise DBAPIError
  end.

Inductive feed : Type := Eco | NonEco.

(** [URLS.items()], in insertion order. *)
Definition URLS : list feed := [Eco; NonEco].

Definition is_eco (f : feed) : bool :=
  match f with Eco => true | NonEco => false end.

(** What [load_dataset] did for a feed: the decoded JSON, or an exception
    (timeout, HTTP error status, undecodable body). *)
Inductive fetched : Type :=
| Fetched (data : pyval)
| FetchFailed.

(** Lines 135 to 154: the record of one item, [None] when the item is
    skipped for want of a name or an address. *)
Definition normalize (f : feed) (item : pyval) : result (option Params) :=
  cells <- get item "Cells" (PDict []) ;;
  name <- get cells "FullName" PNone ;;
  address <- get cells "Address" PNone ;;
  if negb (truthy name) || negb (truthy address) then Ok None
  else
    geo <- get cells "geoData" PNone ;;
    '(lat, lon) <- extract_coordinates geo ;;
    td <- get cells "TestDate" PNone ;;
    test_date <- safe_parse_date td ;;
    admarea <- get cells "AdmArea" PNone ;;
    district <- get cells "District" PNone ;;
    owner <- get cells "Owner" PNone ;;
    Ok (Some (mkParams name admarea district address owner test_date
                       (is_eco f) lat lon)).

(** [for item in data]: the items a Python value yields when iterated. *)
Definition iterate (data : pyval) : result (list pyval) :=
  match data with
  | PList l => Ok l
  | PDict d => Ok (map (fun kv => PStr (fst kv)) d)
  | PStr s => Ok (map (fun c => PStr (String c EmptyString)) (list_ascii_of_string s))
  | _ => Raise TypeError
  end.

Record counters : Type := mkcounters { added : Z; updated : Z }.

(** What a piece of the loop body did on the connection: it returned [a],
    or it raised [e] with the id sequence standing at [seq]. *)
Inductive outcome (A : Type) : Type :=
| Returned (a : A)
| Raised (e : exn) (seq : Z).
Arguments Returned {A} a.
Arguments Raised {A} e seq.

Section Merge.

(** Whether the store takes the bound values for the columns of
    [schema.sql]; a refused statement raises. *)
Variable accepts : Params -> bool.

(** Lines 156 to 165: the lookup, the upsert and the counter. The store
    refuses a statement on the values bound to it, which it reads before
    it forms the row: a refused statement is taken to have drawn no
    sequence value. *)
Definition execute_item (now : timestamp) (p : Params) (st : db * counters)
  : outcome (db * counters) :=
  let '(conn, c) := st in
  match bind_key p with
  | Raise e => Raised e (next_id conn)
  | Ok k =>
      let before := select_exists (stations conn) k in
      if accepts p then
        Returned (upsert now k p conn,
                  if before then mkcounters (added c) (updated c + 1)
                  else mkcounters (added c + 1) (updated c))
      else Raised DBAPIError (next_id conn)
  end.

Definition process_item (now : timestamp) (f : feed) (item : pyval)
  (st : db * counters) : outcome (db * counters) :=
  match normalize f item with
  | Raise e => Raised e (next_id (fst st))
  | Ok None => Returned st
  | Ok (Some p) => execute_item now p st
  end.

Fixpoint process_items (now : timestamp) (f : feed) (items : list pyval)
  (st : db * counters) : outcome (db * counters) :=
  match items with
  | [] => Returned st
  | item :: items' =>
      match process_item now f item st with
      | Returned st' => process_items now f items' st'
      | Raised e seq => Raised e seq
      end
  end.

(** [for item in data: ...], the batch of one feed. *)
Definition process_batch (now : timestamp) (f : feed) (data : pyval)
  (st : db * counters) : outcome (db * counters) :=
  match iterate data with
  | Raise e => Raised e (next_id (fst st))
  | Ok items => process_items now f items st
  end.

(** What the run prints: the counters of every feed that loaded, and the
    totals. *)
Record report : Type := mkreport {
  per_feed : list (feed * counters);
  totals : counters
}.

(** The body of [for key, url in URLS.items()]. *)
Fixpoint process_feeds (now : timestamp) (fetch : feed -> fetched)
  (feeds : list feed) (st : db * report) : outcome (db * report) :=
  match feeds with
  | [] => Returned st
  | f :: feeds' =>
      let '(conn, rep) := st in
      match fetch f with
      | FetchFailed => process_feeds now fetch feeds' st
      | Fetched data =>
          match process_batch now f data (conn, mkcounters 0 0) with
          | Raised e seq => Raised e seq
          | Returned (conn', c) =>
              process_feeds now fetch feeds'
                (conn',
                 mkreport (per_feed rep ++ [(f, c)])
                          (mkcounters (added (totals rep) + added c)
                                      (updated (totals rep) + updated c)))
          end
      end
  end.

(** [with engine.begin() as conn]: commit when the body returns; when it
    raises, roll back and re-raise. The rollback restores the rows; the
    sequence stays where the failed body left it. *)
Definition transaction {A} (d : db) (body : db -> outcome (db * A))
  : db * result A :=
  match body d with
  | Returned (d', a) => (d', Ok a)
  | Raised e seq => (mkdb (stations d) seq, Raise e)
  end.

(** The merge transaction of [import_data] (lines 122 to 169), run at
    transaction time [now] on the store [d]. *)
Definition import_data (now : timestamp) (fetch : feed -> fetched) (d : db)
  : db * result report :=
  transaction d (fun conn =>
    process_feeds now fetch URLS (conn, mkreport [] (mkcounters 0 0))).

(** *** The run seen as a plan and its execution

    Nothing that can raise inside the loop depends on the rows of the store:
    an item either yields a bound record or raises, whatever the store
    holds. [plan] collects the records of a payload, [run_plan] executes
    them; [process_feeds_plan] below shows that the loop is the one after the
    other. *)

Definition op : Type := key * Params.

Definition plan_item (f : feed) (item : pyval) : result (option op) :=
  r <- normalize f item ;;
  match r with
  | None => Ok None
  | Some p =>
      k <- bind_key p ;;
      if accepts p then Ok (Some (k, p)) else Raise DBAPIError
  end.

Fixpoint plan_items (f : feed) (items : list pyval) : result (list op) :=
  match items with
  | [] => Ok []
  | item :: items' =>
      o <- plan_item f item ;;
      ops <- plan_items f items' ;;
      Ok (match o with Some x => x :: ops | None => ops end)
  end.

Fixpoint plan (fetch : feed -> fetched) (feeds : list feed)
  : result (list (feed * list op)) :=
  match feeds with
  | [] => Ok []
  | f :: feeds' =>
      match fetch f with
      | FetchFailed => plan fetch feeds'
      | Fetched data =>
          items <- iterate data ;;
          ops <- plan_items f items ;;
          rest <- plan fetch feeds' ;;
          Ok ((f, ops) :: rest)
      end
  end.

(** The number of statements a payload gets executed before it raises. *)
Fixpoint drawn_items (f : feed) (items : list pyval) : nat :=
  match items with
  | [] => O
  | item :: items' =>
      match plan_item f item with
      | Ok (Some _) => S (drawn_items f items')
      | Ok None => drawn_items f items'
      | Raise _ => O
      end
  end.

Fixpoint drawn (fetch : feed -> fetched) (feeds : list feed) : nat :=
  match feeds with
  | [] => O
  | f :: feeds' =>
      match fetch f with
      | FetchFailed => drawn fetch feeds'
      | Fetched data =>
          match iterate data with
          | Raise _ => O
          | Ok items =>
              match plan_items f items with
              | Ok ops => (List.length ops + drawn fetch feeds')%nat
              | Raise _ => drawn_items f items
              end
          end
      end
  end.

Definition step (now : timestamp) (st : db * counters) (o : op)
  : db * counters :=
  (upsert now (fst o) (snd o) (fst st),
   if select_exists (stations (fst st)) (fst o)
   then mkcounters (added (snd st)) (updated (snd st) + 1)
   else mkcounters (added (snd st) + 1) (updated (snd st))).

Definition run_ops (now : timestamp) (ops : list op) (st : db * counters)
  : db * counters :=
  fold_left (step now) ops st.

Fixpoint run_plan (now : timestamp) (pl : list (feed * list op))
  (st : db * report) : db * report :=
  match pl with
  | [] => st
  | (f, ops) :: pl' =>
      let '(conn', c) := run_ops now ops (fst st, mkcounters 0 0) in
      run_plan now pl'
        (conn',
         mkreport (per_feed (snd st) ++ [(f, c)])
                  (mkcounters (added (totals (snd st)) + added c)
                              (updated (totals (snd st)) + updated c)))
  end.

(** The run replayed at the transaction times [times], each replay on the
    store the one before left. *)
Fixpoint replay (fetch : feed -> fetched) (times : list timestamp) (d : db)
  : list (db * result report) :=
  match times with
  | [] => []
  | t :: times' =>
      let r := import_data t fetch d in
      r :: replay fetch times' (fst r)
  end.

End Merge.

(** The row [r] with its update timestamp set to [t]. *)
Definition with_updated_at (t : timestamp) (r : Station) : Station :=
  mkStation (id r) (name r) (admarea r) (district r) (address r) (owner r)
            (test_date r) (eco_status r) (latitude r) (longitude r)
            (created_at r) t.

(** Two rows that differ at most in their update timestamp. *)
Definition same_but_updated_at (r r' : Station) : Prop :=
  r' = with_updated_at (updated_at r') r.

(** The record of the last operation of [ops] on the key [k]. *)
Fixpoint last_for (k : key) (ops : list op) : option Params :=
  match ops with
  | [] => None
  | o :: ops' =>
      match last_for k ops' with
      | Some p => Some p
      | None => if key_eqb k (fst o) then Some (snd o) else None
      end
  end.

(** For every operation in turn, its key and whether the key was in the
    store when the operation ran: [true] is counted as updated, [false] as
    added. *)
Fixpoint outcomes (now : timestamp) (ops : list op) (d : db)
  : list (key * bool) :=
  match ops with
  | [] => []
  | o :: ops' =>
      (fst o, select_exists (stations d) (fst o))
        :: outcomes now ops' (upsert now (fst o) (snd o) d)
  end.

Definition tally (k : key) (present : bool) (l : list (key * bool)) : Z :=
  Z.of_nat (List.length
    (filter (fun e => key_eqb (fst e) k && Bool.eqb (snd e) present) l)).

Definition occurrences (k : key) (ops : list op) : nat :=
  List.length (filter (fun o => key_eqb (fst o) k) ops).

Definition count_outcome (present : bool) (l : list (key * bool)) : Z :=
  Z.of_nat (List.length (filter (fun e => Bool.eqb (snd e) present) l)).

(** A replay outcome that commits, reports nothing added, inserts no row
    and leaves every row of [d1] as it was but for its update timestamp. *)
Definition replay_is_neutral (d1 : db) (out : db * result report) : Prop :=
  exists rep,
    snd out = Ok rep /\
    added (totals rep) = 0 /\
    Forall (fun fc => added (snd fc) = 0) (per_feed rep) /\
    Forall2 same_but_updated_at (stations d1) (stations (fst out)).

(** What a sequence of operations makes of a row that is already there. *)
Definition touch (now : timestamp) (ops : list op) (r : Station) : Station :=
  fold_left (fun r o => if has_key (fst o) r then do_update now (snd o) r else r)
            ops r.

Definition all_ops (pl : list (feed * list op)) : list op :=
  List.concat (map snd pl).

(** Every key of [ops] has a row in [d]. *)
Definition all_present (ops : list op) (d : db) : Prop :=
  forall o, In o ops -> select_exists (stations d) (fst o) = true.

(** Every row of [d] whose key [ops] mentions carries the record of the
    last operation of [ops] on that key. *)
Definition settled (ops : list op) (d : db) : Prop :=
  forall r p, In r (stations d) -> last_for (station_key r) ops = Some p ->
              r = do_update (updated_at r) p r.

End Catalog.
Import Catalog.

(** ** Clustering: [simple_kmeans] *)

Module KMeans.

Local Open Scope float_scope.

(** A row [[lat, lon]] of the [points] array. *)
Definition point : Type := float * float.

Definition float_of_nat (n : nat) : float :=
  PrimFloat.of_uint63 (Uint63.of_Z (Z.of_nat n)).

(** [np.sqrt(((p - c) ** 2).sum())] for one point and one centroid. *)
Definition distance (p c : point) : float :=
  let dlat := fst p - fst c in
  let dlon := snd p - snd c in
  PrimFloat.sqrt (dlat * dlat + dlon * dlon).

(** numpy's argmin loop on float64: the first minimum, a NaN counting as
    smaller than everything. *)
Fixpoint argmin_from (mp : float) (min_ind i : nat) (l : list float) : nat :=
  match l with
  | [] => min_ind
  | x :: l' =>
      if negb (mp <=? x) then
        if is_nan x then i else argmin_from x i (S i) l'
      else argmin_from mp min_ind (S i) l'
  end.

(** [np.argmin] along an axis: an empty axis is an error. *)
Definition argmin (l : list float) : result nat :=
  match l with
  | [] => Raise ValueError
  | x :: l' => Ok (if is_nan x then O else argmin_from x 0 1 l')
  end.

Fixpoint assign (points centroids : list point) : result (list nat) :=
  match points with
  | [] =>
      match centroids with
      | [] => Raise ValueError
      | _ :: _ => Ok []
      end
  | p :: points' =>
      lbl <- argmin (map (distance p) centroids) ;;
      rest <- assign points' centroids ;;
      Ok (lbl :: rest)
  end.

(** [points[labels == i]]. *)
Fixpoint members (i : nat) (points : list point) (labels : list nat)
  : list point :=
  match points, labels with
  | p :: points', l :: labels' =>
      if Nat.eqb l i then p :: members i points' labels'
      else members i points' labels'
  | _, _ => []
  end.

(** [.mean(axis=0)] of a non-empty selection: the rows added up in order,
    divided by their number. *)
Definition mean (sel : list point) : point :=
  match sel with
  | [] => (nan, nan)
  | p :: sel' =>
      let s := fold_left (fun a q => (fst a + fst q, snd a + snd q)) sel' p in
      let n := float_of_nat (List.length sel) in
      (fst s / n, snd s / n)
  end.

(** The list comprehension that rebuilds the centroids: an empty cluster
    keeps its centroid. *)
Fixpoint recompute (i : nat) (centroids points : list point)
  (labels : list nat) : list point :=
  match centroids with
  | [] => []
  | c :: centroids' =>
      (match members i points labels with
       | [] => c
       | sel => mean sel
       end) :: recompute (S i) centroids' points labels
  end.

(** [np.isclose] with the default tolerances. *)
Definition isclose (a b : float) : bool :=
  if is_finite a && is_finite b
  then abs (a - b) <=? 1e-8 + 1e-5 * abs b
  else a =? b.

Fixpoint allclose (a b : list point) : bool :=
  match a, b with
  | x :: a', y :: b' =>
      isclose (fst x) (fst y) && isclose (snd x) (snd y) && allclose a' b'
  | _, _ => true
  end.

(** [for _ in range(max_iters)], then [return labels]: [labels] is the
    assignment of the last pass, unbound when there was none. *)
Fixpoint refine (iters : nat) (points centroids : list point)
  (labels : option (list nat)) : result (list nat) :=
  match iters with
  | O =>
      match labels with
      | Some l => Ok l
      | None => Raise UnboundLocalError
      end
  | S iters' =>
      l <- assign points centroids ;;
      let new_centroids := recompute 0 centroids points l in
      if allclose centroids new_centroids then Ok l
      else refine iters' points new_centroids (Some l)
  end.

(** [points[indices]]. *)
Fixpoint take_rows (points : list point) (indices : list nat)
  : result (list point) :=
  match indices with
  | [] => Ok []
  | i :: indices' =>
      match nth_error points i with
      | None => Raise IndexError
      | Some p => rest <- take_rows points indices' ;; Ok (p :: rest)
      end
  end.

Section Generator.

(** numpy's process-wide generator: its state, [np.random.seed] and the
    draw of [size] indices below [n] behind
    [np.random.choice(n, size, replace=False)]. *)
Variable rng : Type.
Variable seed : Z -> rng.
Variable sample : rng -> nat -> nat -> list nat * rng.

(** [np.random.choice(n, k, replace=False)] with its argument checks. *)
Definition random_choice (g : rng) (n : nat) (k : Z) : result (list nat) * rng :=
  if ((k <? 0) || (Z.of_nat n <? k))%Z then (Raise ValueError, g)
  else let '(idx, g') := sample g n (Z.to_nat k) in (Ok idx, g').

(** Lines 435 and 436: reseed, draw, index. *)
Definition init_centroids (g : rng) (points : list point) (k : Z)
  : result (list point) * rng :=
  let g1 := seed 42 in
  let '(r, g2) := random_choice g1 (List.length points) k in
  (idx <- r ;; take_rows points idx, g2).

(** [simple_kmeans(points, k, max_iters)] started in generator state [g]:
    what it returns or raises, and the state it leaves. *)
Definition simple_kmeans (g : rng) (points : list point) (k : Z)
  (max_iters : Z) : result (list nat) * rng :=
  if (Z.of_nat (List.length points) <? k)%Z
  then (Ok (repeat O (List.length points)), g)
  else
    let '(r, g') := init_centroids g points k in
    (centroids <- r ;; refine (Z.to_nat max_iters) points centroids None, g').

(** What numpy promises of a draw without replacement: [k] pairwise
    distinct indices below [n]. *)
Definition sample_contract : Prop :=
  forall g n k, (k <= n)%nat ->
    List.length (fst (sample g n k)) = k /\
    NoDup (fst (sample g n k)) /\
    Forall (fun i => (i < n)%nat) (fst (sample g n k)).

End Generator.

(** A generator to run [simple_kmeans] on examples: its state is a counter,
    seeding sets the counter, and a draw is [k] consecutive indices modulo
    [n] starting at the counter, which it then advances. *)
Definition counter_seed (n : Z) : nat := Z.to_nat n.

Definition rotating_sample (g n k : nat) : list nat * nat :=
  (map (fun i => ((i + g) mod n)%nat) (seq 0 k), S g).

End KMeans.
Import KMeans.

(** ** Sample payloads *)

Module Samples.

Definition accept_all (_ : Params) : bool := true.

Definition empty_db : db := mkdb [] 1.

Definition item (name address geo date : pyval) : pyval :=
  PDict [("Cells",
          PDict [("FullName", name); ("Address", address);
                 ("AdmArea", PStr "CAO"); ("District", PStr "Arbat");
                 ("Owner", PStr "Neft"); ("TestDate", date);
                 ("geoData", geo)])].

Definition lenina_eco : pyval :=
  item (PStr "AZS 1") (PStr "Lenina 1")
       (PDict [("coordinates", PList [PFloat 37.6; PFloat 55.7])])
       (PStr "01.02.2023").

Definition lenina_non_eco : pyval :=
  item (PStr "AZS 1") (PStr "Lenina 1") (PStr "POINT(37.61 55.71)")
       (PStr "2023-03-04").

Definition mira_non_eco : pyval :=
  item (PStr "AZS 2") (PStr "Mira 5") PNone PNone.

Definition far_away : pyval :=
  item (PStr "AZS 3") (PStr "Polevaya 7") (PStr "POINT(500 700)") PNone.

Definition half_coordinates : pyval :=
  item (PStr "AZS 4") (PStr "Lesnaya 2")
       (PDict [("coordinates", PList [PNone; PFloat 55.7])]) PNone.

Definition lenina : key := ("AZS 1", "Lenina 1").

(** The same station in both feeds. *)
Definition fetch_both (f : feed) : fetched :=
  match f with
  | Eco => Fetched (PList [lenina_eco])
  | NonEco => Fetched (PList [lenina_non_eco])
  end.

(** A sound eco feed, and a second feed whose second item is a number and
    not an object. *)
Definition fetch_broken (f : feed) : fetched :=
  match f with
  | Eco => Fetched (PList [lenina_eco])
  | NonEco => Fetched (PList [mira_non_eco; PInt 5])
  end.

End Samples.
Import Samples.

(** ** The statistics endpoint: [api_get_stats] *)

Module Stats.

(** A row of the coordinates query: latitude, longitude and
    [eco_status::int] of a station that has both coordinates. *)
Definition coord_row : Type := float * float * Z.

(** An element of [clusters_scatter["points"]]. *)
Record scatter_point : Type := mkpoint {
  sp_lat : float;
  sp_lon : float;
  sp_eco : Z;
  sp_cluster : Z
}.

Record clusters : Type := mkclusters {
  cs_k : Z;
  cs_points : list scatter_point
}.

Record stats : Type := mkstats {
  by_district : list (string * Z);
  clusters_scatter : clusters
}.

(** [d[k] = v] on a dict kept in insertion order. *)
Fixpoint dict_set (d : list (string * Z)) (k : string) (v : Z)
  : list (string * Z) :=
  match d with
  | [] => [(k, v)]
  | (k', v') :: d' =>
      if (k' =? k)%string then (k', v) :: d' else (k', v') :: dict_set d' k v
  end.

(** [{r[0]: int(r[1]) for r in rows}]. *)
Definition dict_of_rows (rows : list (string * Z)) : list (string * Z) :=
  fold_left (fun d r => dict_set d (fst r) (snd r)) rows [].

Fixpoint collect {A} (l : list (result A)) : result (list A) :=
  match l with
  | [] => Ok []
  | r :: l' => a <- r ;; rest <- collect l' ;; Ok (a :: rest)
  end.

(** The dict built for index [i]: [points[i]] with [int(labels[i])]. *)
Definition labelled_point (points : list coord_row) (labels : list nat)
  (i : nat) : result scatter_point :=
  match nth_error points i with
  | None => Raise IndexError
  | Some (lat, lon, eco) =>
      match nth_error labels i with
      | None => Raise IndexError
      | Some c => Ok (mkpoint lat lon eco (Z.of_nat c))
      end
  end.

Section Generator.

Variable rng : Type.
Variable seed : Z -> rng.
Variable sample : rng -> nat -> nat -> list nat * rng.

(** [api_get_stats] on the rows its two queries returned, started in
    generator state [g]. *)
Definition api_get_stats (g : rng) (by_district_rows : list (string * Z))
  (stations_rows : list coord_row) : result stats * rng :=
  let by_district := dict_of_rows by_district_rows in
  let points := stations_rows in
  if (3 <=? List.length points)%nat then
    let coords := map (fun p : coord_row => (fst (fst p), snd (fst p))) points in
    let '(r, g') := simple_kmeans rng seed sample g coords 3 100 in
    (labels <- r ;;
     pts <- collect (map (labelled_point points labels)
                         (seq 0 (List.length points))) ;;
     Ok (mkstats by_district (mkclusters 3 pts)),
     g')
  else
    (Ok (mkstats by_district
           (mkclusters 1
              (map (fun p : coord_row =>
                      mkpoint (fst (fst p)) (snd (fst p)) (snd p) 0)
                   points))),
     g).

End Generator.

End Stats.
Import Stats.

(** ** [date.isoformat], as [api_get_stations] renders [test_date] *)

Module IsoFormat.

Definition digit_char (n : Z) : ascii := ascii_of_nat (48 + Z.to_nat n).

(** [%02d] and [%04d] of a number that fits. *)
Definition pad2 (n : Z) : string :=
  String (digit_char (n / 10)) (String (digit_char (n mod 10)) EmptyString).

Definition pad4 (n : Z) : string :=
  String (digit_char (n / 1000))
    (String (digit_char (n / 100 mod 10))
       (String (digit_char (n / 10 mod 10))
          (String (digit_char (n mod 10)) EmptyString))).

(** [d.isoformat()]: [YYYY-MM-DD]. *)
Definition isoformat (d : date) : string :=
  (pad4 (year d) ++ String "-" (pad2 (month d) ++ String "-" (pad2 (day d))))%string.

End IsoFormat.
Import IsoFormat.

(** ** Reading the report *)

Module Report.

(** Whether [load_dataset] returned for a feed. *)
Definition loaded (fetch : feed -> fetched) (f : feed) : bool :=
  match fetch f with Fetched _ => true | FetchFailed => false end.

Definition sum_added (l : list (feed * counters)) : Z :=
  fold_right (fun fc acc => added (snd fc) + acc) 0 l.

Definition sum_updated (l : list (feed * counters)) : Z :=
  fold_right (fun fc acc => updated (snd fc) + acc) 0 l.

End Report.
Import Report.

(** ** The other writers of the coordinates *)

Module Admin.

(** The range checks of [admin_create_station] (main.py, lines 759 to 764)
    and of [admin_update_station] (lines 663 to 673) on the values
    [_to_float_or_none] returned: whether the endpoint goes on to write
    them. [not (-90 <= lat <= 90)] refuses a NaN as well. *)
Definition coordinates_in_range (lat lon : option float) : bool :=
  match lat with
  | None => true
  | Some x => PrimFloat.leb (-90) x && PrimFloat.leb x 90
  end
  &&
  match lon with
  | None => true
  | Some x => PrimFloat.leb (-180) x && PrimFloat.leb x 180
  end.

End Admin.
Import Admin.

(** Further sample payloads. *)

Module MoreSamples.

(** Only the non-eco feed loads, with one station. *)
Definition fetch_mira_only (f : feed) : fetched :=
  match f with
  | Eco => FetchFailed
  | NonEco => Fetched (PList [mira_non_eco])
  end.

(** An item whose name is the empty text. *)
Definition nameless : pyval :=
  item (PStr "") (PStr "Lesnaya 9") PNone PNone.

Definition lenina_eco_record : Params :=
  mkParams (PStr "AZS 1") (PStr "CAO") (PStr "Arbat") (PStr "Lenina 1")
           (PStr "Neft") (Some (mkdate 2023 2 1)) true
           (PFloat 55.7) (PFloat 37.6).

Definition lenina_non_eco_record : Params :=
  mkParams (PStr "AZS 1") (PStr "CAO") (PStr "Arbat") (PStr "Lenina 1")
           (PStr "Neft") (Some (mkdate 2023 3 4)) false
           (PFloat 55.71) (PFloat 37.61).

Definition mira_record : Params :=
  mkParams (PStr "AZS 2") (PStr "CAO") (PStr "Arbat") (PStr "Mira 5")
           (PStr "Neft") None false PNone PNone.

(** The store after the sample station was imported from the non-eco feed
    alone at time 100. *)
Definition lenina_db : db :=
  mkdb [mkStation 1 "AZS 1" (PStr "CAO") (PStr "Arbat") "Lenina 1"
          (PStr "Neft") (Some (mkdate 2023 3 4)) false
          (PFloat 55.71) (PFloat 37.61) 100 100] 2.

(** The eco endpoint answers with an error object instead of a list. *)
Definition fetch_error_object (f : feed) : fetched :=
  match f with
  | Eco => Fetched (PDict [("error", PStr "quota exceeded")])
  | NonEco => Fetched (PList [mira_non_eco])
  end.

(** Six stations in three groups. *)
Definition six_points : list point :=
  [(1, 1); (10, 10); (20, 20); (1.5, 1.2); (10.5, 10); (21, 20)]%float.

Definition two_rows : list coord_row :=
  [(55.7%float, 37.6%float, 1); (55.8%float, 37.5%float, 0)].

Definition area_rows : list (string * Z) := [("CAO", 5); ("ZAO", 2)].

End MoreSamples.
Import MoreSamples.

(** * Properties *)

(** Splits the binds of a hypothesis [H : ... = Ok _] into their cases. *)
Ltac split_binds H :=
  unfold bind in H;
  repeat (match type of H with
          | context [match ?x with _ => _ end] => destruct x eqn:?
          end; try discriminate H).


(** ** Clustering *)

Section KMeansProperties.

Variable rng : Type.
Variable seed : Z -> rng.
Variable sample : rng -> nat -> nat -> list nat * rng.

Lemma take_rows_in_range (points : list point) (idx : list nat) :
  Forall (fun i => (i < List.length points)%nat) idx ->
  take_rows points idx = Ok (map (fun i => nth i points (0, 0)%float) idx).
Proof.
  induction 1 as [|i idx Hi _ IH]; simpl; [reflexivity|].
  destruct (nth_error points i) as [p|] eqn:E.
  - rewrite IH. simpl. f_equal. f_equal.
    symmetry. apply nth_error_nth. exact E.
  - apply nth_error_None in E. lia.
Qed.

Lemma assign_no_centroids (points : list point) :
  assign points [] = Raise ValueError.
Proof. destruct points; reflexivity. Qed.

Lemma refine_no_centroids (iters : nat) (points : list point) :
  exists e, refine iters points [] None = Raise e.
Proof.
  destruct iters; simpl.
  - eexists; reflexivity.
  - rewrite assign_no_centroids. eexists; reflexivity.
Qed.

(** C7: with fewer points than clusters no refinement takes place: the
    generator is left as it was and every point gets label 0. *)
Theorem kmeans_fewer_points_than_k (g : rng) (points : list point)
  (k max_iters : Z) :
  (Z.of_nat (List.length points) < k)%Z ->
  simple_kmeans rng seed sample g points k max_iters
  = (Ok (repeat O (List.length points)), g).
Proof.
  intros H. unfold simple_kmeans.
  apply Z.ltb_lt in H. rewrite H. reflexivity.
Qed.

(** C8, as amended: an empty point set with a positive [k] yields the empty
    labelling; a [k] that is zero or negative passes the guard and the call
    raises. *)
Theorem kmeans_empty_or_nonpositive_k (g : rng) (points : list point)
  (k max_iters : Z) :
  sample_contract rng sample ->
  ((0 < k)%Z ->
   simple_kmeans rng seed sample g [] k max_iters = (Ok [], g)) /\
  ((k <= 0)%Z ->
   exists e, fst (simple_kmeans rng seed sample g points k max_iters) = Raise e).
Proof.
  intros Hs. split.
  - intros Hk. unfold simple_kmeans. cbn [List.length Z.of_nat repeat].
    replace (0 <? k)%Z with true by (symmetry; apply Z.ltb_lt; exact Hk).
    reflexivity.
  - intros Hk. unfold simple_kmeans.
    replace (Z.of_nat (List.length points) <? k)%Z with false
      by (symmetry; apply Z.ltb_ge; lia).
    unfold init_centroids, random_choice.
    destruct (k <? 0)%Z eqn:Hneg; simpl.
    + eexists; reflexivity.
    + apply Z.ltb_ge in Hneg. assert (k = 0%Z) by lia. subst k.
      replace (Z.of_nat (List.length points) <? 0)%Z with false
        by (symmetry; apply Z.ltb_ge; lia).
      destruct (Hs (seed 42) (List.length points) O) as (Hlen & _ & _); [lia|].
      change (Z.to_nat 0) with O.
      destruct (sample (seed 42) (List.length points) 0) as [idx g'].
      simpl in Hlen. destruct idx; [|discriminate]. simpl.
      apply refine_no_centroids.
Qed.

(** C9: the labels do not depend on the generator state the call starts
    from, because the state is reset to seed 42 before the draw; and under
    numpy's contract the initial centroids are the points at [k] pairwise
    distinct positions. *)
Theorem kmeans_independent_of_ambient_state (g1 g2 : rng)
  (points : list point) (k max_iters : Z) :
  sample_contract rng sample ->
  fst (simple_kmeans rng seed sample g1 points k max_iters)
  = fst (simple_kmeans rng seed sample g2 points k max_iters) /\
  init_centroids rng seed sample g1 points k
  = init_centroids rng seed sample g2 points k /\
  ((0 <= k <= Z.of_nat (List.length points))%Z ->
   exists idx,
     NoDup idx /\ List.length idx = Z.to_nat k /\
     Forall (fun i => (i < List.length points)%nat) idx /\
     fst (init_centroids rng seed sample g1 points k)
     = Ok (map (fun i => nth i points (0, 0)%float) idx)).
Proof.
  intros Hs. split; [|split].
  - unfold simple_kmeans.
    destruct (Z.of_nat (List.length points) <? k)%Z; [reflexivity|].
    unfold init_centroids.
    destruct (random_choice rng sample (seed 42) (List.length points) k).
    reflexivity.
  - reflexivity.
  - intros Hk. unfold init_centroids, random_choice.
    replace ((k <? 0) || (Z.of_nat (List.length points) <? k))%Z with false.
    2:{ symmetry. apply orb_false_iff. split; apply Z.ltb_ge; lia. }
    destruct (Hs (seed 42) (List.length points) (Z.to_nat k))
      as (Hlen & Hnd & Hlt); [lia|].
    destruct (sample (seed 42) (List.length points) (Z.to_nat k)) as [idx g'].
    simpl in *. exists idx. repeat split; try assumption.
    apply take_rows_in_range. exact Hlt.
Qed.

End KMeansProperties.

Lemma rotation_injective (g n i j : nat) :
  (i < n)%nat -> (j < n)%nat ->
  ((i + g) mod n = (j + g) mod n)%nat -> i = j.
Proof.
  intros Hi Hj H.
  pose proof (Nat.div_mod_eq (i + g) n) as Ha.
  pose proof (Nat.div_mod_eq (j + g) n) as Hb.
  rewrite H in Ha.
  assert (((i + g) / n = (j + g) / n)%nat) by nia.
  nia.
Qed.

Lemma rotating_sample_contract : sample_contract nat rotating_sample.
Proof.
  intros g n k Hk. unfold rotating_sample. cbn [fst]. repeat split.
  - now rewrite length_map, length_seq.
  - apply NoDup_map_NoDup_ForallPairs; [|apply seq_NoDup].
    intros i j Hi Hj. apply in_seq in Hi, Hj. apply rotation_injective; lia.
  - apply Forall_forall. intros x Hx. apply in_map_iff in Hx.
    destruct Hx as (i & <- & Hi). apply in_seq in Hi.
    apply Nat.mod_upper_bound. lia.
Qed.

(** Two points, three clusters: labels [[0, 0]], and the generator is where
    it was. *)
Lemma kmeans_fewer_points_than_k_witness :
  simple_kmeans nat counter_seed rotating_sample 7%nat
    [(55.7, 37.6); (55.8, 37.5)]%float 3 100
  = (Ok [O; O], 7%nat).
Proof.
  apply (kmeans_fewer_points_than_k nat counter_seed rotating_sample 7%nat
           [(55.7, 37.6); (55.8, 37.5)]%float 3 100).
  simpl. lia.
Defined.

Lemma kmeans_empty_or_nonpositive_k_witness :
  simple_kmeans nat counter_seed rotating_sample 7%nat [] 3 100
  = (Ok [], 7%nat) /\
  exists e,
    fst (simple_kmeans nat counter_seed rotating_sample 7%nat
           [(55.7, 37.6)]%float 0 100) = Raise e.
Proof.
  destruct (kmeans_empty_or_nonpositive_k nat counter_seed rotating_sample
              7%nat [(55.7, 37.6)]%float 3 100 rotating_sample_contract)
    as [H _].
  destruct (kmeans_empty_or_nonpositive_k nat counter_seed rotating_sample
              7%nat [(55.7, 37.6)]%float 0 100 rotating_sample_contract)
    as [_ H0].
  split; [apply H; lia | apply H0; lia].
Defined.

(** The claim of C8 fails where [k] is not positive: with one point,
    [k = 0] reaches [np.argmin] over no centroid and [k = -1] is refused by
    the draw; both raise, also on the empty point set. *)
Lemma kmeans_k_zero_raises :
  fst (simple_kmeans nat counter_seed rotating_sample 7%nat
         [(55.7, 37.6)]%float 0 100) = Raise ValueError /\
  fst (simple_kmeans nat counter_seed rotating_sample 7%nat
         [(55.7, 37.6)]%float (-1) 100) = Raise ValueError /\
  fst (simple_kmeans nat counter_seed rotating_sample 7%nat [] 0 100)
  = Raise ValueError /\
  ~ (forall points k,
       (k <= 0)%Z ->
       exists labels,
         fst (simple_kmeans nat counter_seed rotating_sample 7%nat points k 100)
         = Ok labels).
Proof.
  split; [reflexivity|]. split; [reflexivity|]. split; [reflexivity|].
  intros H. destruct (H [(55.7, 37.6)]%float 0%Z) as [l Hl]; [lia|].
  discriminate Hl.
Qed.

(** Six points in three groups, clustered from two different generator
    states: the same labels, one group each. *)
Lemma kmeans_independent_of_ambient_state_witness :
  fst (simple_kmeans nat counter_seed rotating_sample 0%nat
         [(1, 1); (10, 10); (20, 20); (1.5, 1.2); (10.5, 10); (21, 20)]%float
         3 100)
  = fst (simple_kmeans nat counter_seed rotating_sample 7%nat
         [(1, 1); (10, 10); (20, 20); (1.5, 1.2); (10.5, 10); (21, 20)]%float
         3 100) /\
  fst (simple_kmeans nat counter_seed rotating_sample 7%nat
         [(1, 1); (10, 10); (20, 20); (1.5, 1.2); (10.5, 10); (21, 20)]%float
         3 100)
  = Ok [0; 1; 2; 0; 1; 2]%nat.
Proof.
  split.
  - apply (kmeans_independent_of_ambient_state nat counter_seed
             rotating_sample 0%nat 7%nat _ 3 100 rotating_sample_contract).
  - vm_compute. reflexivity.
Defined.

(** ** The upsert *)

Lemma key_eqb_refl (k : key) : key_eqb k k = true.
Proof. unfold key_eqb. now rewrite !String.eqb_refl. Qed.

Lemma key_eqb_eq (k1 k2 : key) : key_eqb k1 k2 = true <-> k1 = k2.
Proof.
  unfold key_eqb. destruct k1 as [a b], k2 as [c d]. simpl.
  rewrite andb_true_iff, !String.eqb_eq. split.
  - intros [-> ->]. reflexivity.
  - intros H. injection H as -> ->. split; reflexivity.
Qed.

Lemma key_eqb_sym (k1 k2 : key) : key_eqb k1 k2 = key_eqb k2 k1.
Proof.
  unfold key_eqb. now rewrite (String.eqb_sym (fst k1)), (String.eqb_sym (snd k1)).
Qed.

Lemma do_update_key (now : timestamp) (p : Params) (r : Station) :
  station_key (do_update now p r) = station_key r.
Proof. reflexivity. Qed.

Lemma has_key_do_update (now : timestamp) (p : Params) (k : key) (r : Station) :
  has_key k (do_update now p r) = has_key k r.
Proof. reflexivity. Qed.

Lemma select_exists_map (f : Station -> Station) (rows : list Station) (k : key) :
  (forall r, station_key (f r) = station_key r) ->
  select_exists (map f rows) k = select_exists rows k.
Proof.
  intros Hf. unfold select_exists. induction rows as [|r rows IH]; simpl.
  - reflexivity.
  - unfold has_key at 1 3. rewrite Hf, IH. reflexivity.
Qed.

Lemma select_exists_app (l1 l2 : list Station) (k : key) :
  select_exists (l1 ++ l2) k = select_exists l1 k || select_exists l2 k.
Proof. unfold select_exists. apply existsb_app. Qed.

(** The update branch keeps every key; the insert branch adds one. *)
Lemma select_exists_upsert (now : timestamp) (k k' : key) (p : Params) (d : db) :
  select_exists (stations (upsert now k p d)) k'
  = select_exists (stations d) k' || key_eqb k k'.
Proof.
  unfold upsert. destruct (select_exists (stations d) k) eqn:E; simpl.
  - rewrite select_exists_map.
    2:{ intros r. destruct (has_key k r); reflexivity. }
    destruct (key_eqb k k') eqn:Ek.
    + apply key_eqb_eq in Ek. subst k'. rewrite E. reflexivity.
    + now rewrite orb_false_r.
  - rewrite select_exists_app. simpl. unfold has_key, station_key. simpl.
    destruct k as [n a]. simpl. now rewrite orb_false_r.
Qed.

(** C3: an upsert on the key of an existing row [r] replaces it, at its
    position, by a row with the same id, key and creation time, whose
    admarea, district, owner, test_date, eco_status, latitude and longitude
    are the bound ones and whose update timestamp is the statement's time;
    no row is added, and every row with another key is as it was. *)
Theorem upsert_existing_row (now : timestamp) (k : key) (p : Params) (d : db)
  (i : nat) (r : Station) :
  nth_error (stations d) i = Some r ->
  station_key r = k ->
  exists r',
    nth_error (stations (upsert now k p d)) i = Some r' /\
    id r' = id r /\ created_at r' = created_at r /\
    name r' = name r /\ address r' = address r /\
    admarea r' = p_admarea p /\ district r' = p_district p /\
    owner r' = p_owner p /\ test_date r' = p_test_date p /\
    eco_status r' = p_eco_status p /\
    latitude r' = p_latitude p /\ longitude r' = p_longitude p /\
    updated_at r' = now /\
    List.length (stations (upsert now k p d)) = List.length (stations d) /\
    (forall j q, nth_error (stations d) j = Some q -> station_key q <> k ->
                 nth_error (stations (upsert now k p d)) j = Some q).
Proof.
  intros Hi Hk.
  assert (Hex : select_exists (stations d) k = true).
  { unfold select_exists. apply existsb_exists. exists r. split.
    - eapply nth_error_In; eassumption.
    - unfold has_key. rewrite Hk. apply key_eqb_refl. }
  unfold upsert. rewrite Hex. simpl.
  exists (do_update now p r). split.
  { rewrite nth_error_map, Hi. simpl. unfold has_key.
    rewrite Hk, key_eqb_refl. reflexivity. }
  repeat (split; [reflexivity|]).
  split; [apply length_map|].
  intros j q Hj Hq. rewrite nth_error_map, Hj. simpl.
  unfold has_key. destruct (key_eqb (station_key q) k) eqn:E.
  - apply key_eqb_eq in E. contradiction.
  - reflexivity.
Qed.

(** ** The import run *)

Section ImportProperties.

Variable accepts : Params -> bool.

(** Every execution of the statement draws one sequence value. *)
Lemma next_id_upsert (now : timestamp) (k : key) (p : Params) (d : db) :
  next_id (upsert now k p d) = next_id d + 1.
Proof. unfold upsert. destruct (select_exists (stations d) k); reflexivity. Qed.

Lemma run_ops_app (now : timestamp) (a b : list op) (st : db * counters) :
  run_ops now (a ++ b) st = run_ops now b (run_ops now a st).
Proof. unfold run_ops. apply fold_left_app. Qed.

Lemma next_id_run_ops (now : timestamp) (ops : list op) (st : db * counters) :
  next_id (fst (run_ops now ops st))
  = next_id (fst st) + Z.of_nat (List.length ops).
Proof.
  revert st. induction ops as [|o ops IH]; intros st.
  - simpl. lia.
  - change (run_ops now (o :: ops) st) with (run_ops now ops (step now st o)).
    rewrite IH. unfold step. cbn [fst]. rewrite next_id_upsert.
    change (List.length (o :: ops)) with (S (List.length ops)). lia.
Qed.

(** One item: either it raises, or it is skipped, or its record is
    executed, and which of the three does not depend on the store. *)
Lemma process_item_plan (now : timestamp) (f : feed) (item : pyval)
  (st : db * counters) :
  process_item accepts now f item st
  = match plan_item accepts f item with
    | Ok o => Returned (match o with Some x => step now st x | None => st end)
    | Raise e => Raised e (next_id (fst st))
    end.
Proof.
  unfold process_item, plan_item.
  destruct (normalize f item) as [[p|]|e]; simpl; try reflexivity.
  unfold execute_item. destruct st as [conn c].
  destruct (bind_key p) as [k|e]; simpl; [|reflexivity].
  destruct (accepts p); reflexivity.
Qed.

Lemma process_items_plan (now : timestamp) (f : feed) (items : list pyval)
  (st : db * counters) :
  process_items accepts now f items st
  = match plan_items accepts f items with
    | Ok ops => Returned (run_ops now ops st)
    | Raise e =>
        Raised e (next_id (fst st) + Z.of_nat (drawn_items accepts f items))
    end.
Proof.
  revert st. induction items as [|item items IH]; intros st; simpl.
  - reflexivity.
  - rewrite process_item_plan.
    destruct (plan_item accepts f item) as [o|e]; simpl.
    2:{ now rewrite Z.add_0_r. }
    rewrite IH.
    destruct (plan_items accepts f items) as [ops|e]; simpl.
    + destruct o; reflexivity.
    + destruct o as [x|]; [|reflexivity].
      unfold step. cbn [fst]. rewrite next_id_upsert. f_equal. lia.
Qed.

Lemma process_feeds_plan (now : timestamp) (fetch : feed -> fetched)
  (feeds : list feed) (st : db * report) :
  process_feeds accepts now fetch feeds st
  = match plan accepts fetch feeds with
    | Ok pl => Returned (run_plan now pl st)
    | Raise e =>
        Raised e (next_id (fst st) + Z.of_nat (drawn accepts fetch feeds))
    end.
Proof.
  revert st. induction feeds as [|f feeds IH]; intros [conn rep]; simpl.
  - reflexivity.
  - destruct (fetch f) as [data|]; [|apply IH].
    unfold process_batch.
    destruct (iterate data) as [items|e]; simpl.
    2:{ now rewrite Z.add_0_r. }
    rewrite process_items_plan.
    destruct (plan_items accepts f items) as [ops|e]; simpl; [|reflexivity].
    destruct (run_ops now ops (conn, mkcounters 0 0)) as [conn' c] eqn:E.
    rewrite IH.
    destruct (plan accepts fetch feeds) as [pl|e]; simpl.
    + rewrite E. reflexivity.
    + f_equal. cbn [fst].
      assert (Hn : next_id conn' = next_id conn + Z.of_nat (List.length ops)).
      { change conn' with (fst (conn', c)). rewrite <- E.
        apply next_id_run_ops. }
      rewrite Hn. lia.
Qed.

(** The run either raises on the payload, and leaves the rows as they were
    and the sequence where the statements executed until then took it, or
    executes the whole plan and commits. *)
Lemma import_data_plan (now : timestamp) (fetch : feed -> fetched) (d : db) :
  import_data accepts now fetch d
  = match plan accepts fetch URLS with
    | Ok pl =>
        (fst (run_plan now pl (d, mkreport [] (mkcounters 0 0))),
         Ok (snd (run_plan now pl (d, mkreport [] (mkcounters 0 0)))))
    | Raise e =>
        (mkdb (stations d)
              (next_id d + Z.of_nat (drawn accepts fetch URLS)),
         Raise e)
    end.
Proof.
  unfold import_data, transaction. rewrite process_feeds_plan.
  destruct (plan accepts fetch URLS) as [pl|e]; simpl; [|reflexivity].
  destruct (run_plan now pl (d, mkreport [] (mkcounters 0 0))). reflexivity.
Qed.

End ImportProperties.

(** *** Executing operations *)

Lemma run_ops_db_indep (now : timestamp) (ops : list op) (d : db)
  (c c' : counters) :
  fst (run_ops now ops (d, c)) = fst (run_ops now ops (d, c')).
Proof.
  revert d c c'. induction ops as [|o ops IH]; intros d c c'; simpl.
  - reflexivity.
  - apply IH.
Qed.

Lemma select_exists_run_ops (now : timestamp) (ops : list op)
  (st : db * counters) (k : key) :
  select_exists (stations (fst (run_ops now ops st))) k
  = select_exists (stations (fst st)) k
    || existsb (fun o => key_eqb (fst o) k) ops.
Proof.
  revert st. induction ops as [|o ops IH]; intros st; simpl.
  - now rewrite orb_false_r.
  - rewrite IH. unfold step. simpl. rewrite select_exists_upsert.
    now rewrite orb_assoc.
Qed.

Lemma all_present_after_run (now : timestamp) (ops : list op)
  (st : db * counters) :
  all_present ops (fst (run_ops now ops st)).
Proof.
  intros o Ho. rewrite select_exists_run_ops.
  apply orb_true_iff. right. apply existsb_exists.
  exists o. split; [exact Ho | apply key_eqb_refl].
Qed.

Lemma touch_key (now : timestamp) (ops : list op) (r : Station) :
  station_key (touch now ops r) = station_key r.
Proof.
  unfold touch. revert r. induction ops as [|o ops IH]; intros r; simpl.
  - reflexivity.
  - rewrite IH. destruct (has_key (fst o) r); reflexivity.
Qed.

Lemma touch_app (now : timestamp) (a b : list op) (r : Station) :
  touch now (a ++ b) r = touch now b (touch now a r).
Proof. unfold touch. apply fold_left_app. Qed.

Lemma last_for_app (k : key) (a b : list op) :
  last_for k (a ++ b)
  = match last_for k b with Some p => Some p | None => last_for k a end.
Proof.
  induction a as [|o a IH]; simpl.
  - destruct (last_for k b); reflexivity.
  - rewrite IH. destruct (last_for k b); reflexivity.
Qed.

(** Only the last operation on its key shows on a row. *)
Lemma touch_last (now : timestamp) (ops : list op) (r : Station) :
  touch now ops r
  = match last_for (station_key r) ops with
    | Some p => do_update now p r
    | None => r
    end.
Proof.
  revert r. induction ops as [|o ops IH]; intros r.
  - reflexivity.
  - change (touch now (o :: ops) r)
      with (touch now ops
              (if has_key (fst o) r then do_update now (snd o) r else r)).
    rewrite IH. simpl.
    assert (Hk : station_key
                   (if has_key (fst o) r then do_update now (snd o) r else r)
                 = station_key r)
      by (destruct (has_key (fst o) r); reflexivity).
    rewrite Hk. destruct (last_for (station_key r) ops) as [p|].
    + destruct (has_key (fst o) r); reflexivity.
    + unfold has_key. destruct (key_eqb (station_key r) (fst o)); reflexivity.
Qed.

(** Where every key is already in the store, the operations only update:
    no row is inserted and nothing is counted as added. *)
Lemma run_ops_present (now : timestamp) (ops : list op) (d : db) (c : counters) :
  all_present ops d ->
  run_ops now ops (d, c)
  = (mkdb (map (touch now ops) (stations d))
          (next_id d + Z.of_nat (List.length ops)),
     mkcounters (added c) (updated c + Z.of_nat (List.length ops))).
Proof.
  revert d c. induction ops as [|o ops IH]; intros d c Hp.
  - simpl. rewrite map_id, !Z.add_0_r. destruct d, c. reflexivity.
  - assert (Ho : select_exists (stations d) (fst o) = true)
      by (apply Hp; left; reflexivity).
    change (run_ops now (o :: ops) (d, c))
      with (run_ops now ops (step now (d, c) o)).
    unfold step, upsert. simpl fst. simpl snd. rewrite Ho.
    rewrite IH.
    + cbn [stations next_id added updated]. rewrite map_map.
      change (List.length (o :: ops)) with (S (List.length ops)).
      f_equal; f_equal; lia.
    + intros o' Ho'. simpl. rewrite select_exists_map.
      * apply Hp. right. exact Ho'.
      * intros r. destruct (has_key (fst o) r); reflexivity.
Qed.

Lemma in_upsert (now : timestamp) (k : key) (p : Params) (d : db) (r : Station) :
  In r (stations (upsert now k p d)) ->
  (exists r0, In r0 (stations d) /\
              r = if has_key k r0 then do_update now p r0 else r0) \/
  r = new_row now (next_id d) k p.
Proof.
  unfold upsert. destruct (select_exists (stations d) k) eqn:E; simpl.
  - intros H. apply in_map_iff in H. destruct H as (r0 & <- & H0).
    left. exists r0. split; [exact H0 | reflexivity].
  - intros H. apply in_app_or in H. destruct H as [H | [<- | []]].
    + left. exists r. split; [exact H|].
      unfold select_exists in E.
      rewrite <- not_true_iff_false, existsb_exists in E.
      destruct (has_key k r) eqn:Ek; [|reflexivity].
      exfalso. apply E. exists r. split; assumption.
    + right. reflexivity.
Qed.

(** After a run, every row whose key the run mentions carries the last
    record of that key. *)
Lemma settled_after_run (now : timestamp) (ops : list op) (st : db * counters) :
  settled ops (fst (run_ops now ops st)).
Proof.
  induction ops as [|o ops IH] using rev_ind; intros r p Hr Hl.
  - discriminate Hl.
  - rewrite run_ops_app in Hr. simpl in Hr. unfold step in Hr. simpl in Hr.
    rewrite last_for_app in Hl. simpl in Hl.
    apply in_upsert in Hr. destruct Hr as [(r0 & Hr0 & ->) | ->].
    + unfold has_key in *.
      destruct (key_eqb (station_key r0) (fst o)) eqn:Ek.
      * rewrite do_update_key, Ek in Hl. injection Hl as <-. reflexivity.
      * rewrite Ek in Hl. apply IH; assumption.
    + assert (Hk : key_eqb (station_key (new_row now
                      (next_id (fst (run_ops now ops st))) (fst o) (snd o)))
                     (fst o) = true).
      { unfold station_key. simpl. destruct (fst o). apply key_eqb_refl. }
      rewrite Hk in Hl. injection Hl as <-. reflexivity.
Qed.

Lemma do_update_settled (t : timestamp) (p : Params) (r : Station) :
  r = do_update (updated_at r) p r ->
  do_update t p r = with_updated_at t r.
Proof.
  intros H. rewrite H at 2. reflexivity.
Qed.

Lemma touch_settled (t : timestamp) (ops : list op) (d : db) (r : Station) :
  settled ops d -> In r (stations d) ->
  same_but_updated_at r (touch t ops r).
Proof.
  intros Hs Hr. rewrite touch_last.
  destruct (last_for (station_key r) ops) as [p|] eqn:E.
  - specialize (Hs r p Hr E). rewrite (do_update_settled t p r Hs).
    unfold same_but_updated_at. destruct r; reflexivity.
  - unfold same_but_updated_at. destruct r; reflexivity.
Qed.

Lemma same_but_updated_at_trans (a b c : Station) :
  same_but_updated_at a b -> same_but_updated_at b c ->
  same_but_updated_at a c.
Proof.
  unfold same_but_updated_at. intros Hab Hbc.
  rewrite Hbc. rewrite Hab. destruct a; reflexivity.
Qed.

Lemma Forall2_same_refl (l : list Station) :
  Forall2 same_but_updated_at l l.
Proof.
  induction l as [|r l IH]; constructor; [|exact IH].
  unfold same_but_updated_at. destruct r; reflexivity.
Qed.

Lemma Forall2_same_trans (a b c : list Station) :
  Forall2 same_but_updated_at a b -> Forall2 same_but_updated_at b c ->
  Forall2 same_but_updated_at a c.
Proof.
  intros Hab. revert c. induction Hab as [|x y a b Hxy _ IH]; intros c Hbc.
  - inversion Hbc. constructor.
  - inversion Hbc as [|y' z b' c' Hyz Hbc']; subst. constructor.
    + eapply same_but_updated_at_trans; eassumption.
    + apply IH. assumption.
Qed.

Lemma Forall2_touch (t : timestamp) (ops : list op) (d : db) :
  settled ops d ->
  Forall2 same_but_updated_at (stations d) (map (touch t ops) (stations d)).
Proof.
  intros Hs.
  assert (H : forall l, (forall r, In r l -> In r (stations d)) ->
                        Forall2 same_but_updated_at l (map (touch t ops) l)).
  { induction l as [|r l IH]; intros Hin; simpl; constructor.
    - eapply touch_settled; [exact Hs | apply Hin; left; reflexivity].
    - apply IH. intros r' Hr'. apply Hin. right. exact Hr'. }
  apply H. auto.
Qed.

(** *** Executing a plan *)

Lemma run_plan_db (now : timestamp) (pl : list (feed * list op)) (d : db)
  (rep : report) (c : counters) :
  fst (run_plan now pl (d, rep)) = fst (run_ops now (all_ops pl) (d, c)).
Proof.
  revert d rep c. induction pl as [|[f ops] pl IH]; intros d rep c.
  - reflexivity.
  - unfold all_ops. simpl. fold (all_ops pl). rewrite run_ops_app.
    destruct (run_ops now ops (d, mkcounters 0 0)) as [conn' c1] eqn:E1.
    destruct (run_ops now ops (d, c)) as [conn2 c2] eqn:E2.
    assert (conn2 = conn') as ->.
    { change conn2 with (fst (conn2, c2)). rewrite <- E2.
      change conn' with (fst (conn', c1)). rewrite <- E1.
      apply run_ops_db_indep. }
    apply IH.
Qed.

Lemma all_present_app (a b : list op) (d : db) :
  all_present (a ++ b) d <-> all_present a d /\ all_present b d.
Proof.
  unfold all_present. split.
  - intros H. split; intros o Ho; apply H; apply in_or_app; auto.
  - intros [Ha Hb] o Ho. apply in_app_or in Ho. destruct Ho; auto.
Qed.

(** A plan run on a store that has all its keys: rows are only touched, and
    every feed reports nothing added. *)
Lemma run_plan_present (now : timestamp) (pl : list (feed * list op)) (d : db)
  (rep : report) :
  all_present (all_ops pl) d ->
  stations (fst (run_plan now pl (d, rep)))
  = map (touch now (all_ops pl)) (stations d) /\
  added (totals (snd (run_plan now pl (d, rep)))) = added (totals rep) /\
  (Forall (fun fc => added (snd fc) = 0) (per_feed rep) ->
   Forall (fun fc => added (snd fc) = 0)
          (per_feed (snd (run_plan now pl (d, rep))))).
Proof.
  revert d rep. induction pl as [|[f ops] pl IH]; intros d rep Hp.
  - simpl. rewrite map_id. auto.
  - unfold all_ops in Hp. simpl in Hp. fold (all_ops pl) in Hp.
    apply all_present_app in Hp. destruct Hp as [Hp1 Hp2].
    simpl. rewrite (run_ops_present now ops d _ Hp1).
    match goal with
    | |- context [run_plan now pl (?d1, ?rep1)] =>
        destruct (IH d1 rep1) as (Hdb & Hadd & Hall)
    end.
    { intros o Ho. simpl. rewrite select_exists_map.
      - apply Hp2. exact Ho.
      - intros r. apply touch_key. }
    split; [|split].
    + rewrite Hdb. simpl. rewrite map_map.
      apply map_ext. intros r. unfold all_ops. simpl.
      symmetry. apply touch_app.
    + rewrite Hadd. simpl. lia.
    + intros H0. apply Hall. simpl. apply Forall_app. split; [exact H0|].
      constructor; [reflexivity | constructor].
Qed.

Section Idempotence.

Variable accepts : Params -> bool.

Lemma replay_neutral_from (fetch : feed -> fetched)
  (pl : list (feed * list op)) (d1 : db) (times : list timestamp) (d' : db) :
  plan accepts fetch URLS = Ok pl ->
  all_present (all_ops pl) d' -> settled (all_ops pl) d' ->
  Forall2 same_but_updated_at (stations d1) (stations d') ->
  Forall (replay_is_neutral d1) (replay accepts fetch times d').
Proof.
  intros Hpl. revert d'.
  induction times as [|t times IH]; intros d' Hp Hs Hsame; simpl.
  - constructor.
  - rewrite import_data_plan, Hpl.
    set (rep0 := mkreport [] (mkcounters 0 0)).
    destruct (run_plan_present t pl d' rep0 Hp) as (Hdb & Hadd & Hall).
    cbn [fst snd]. constructor.
    + exists (snd (run_plan t pl (d', rep0))). cbn [fst snd].
      split; [reflexivity|]. split; [exact Hadd|].
      split; [apply Hall; constructor|].
      rewrite Hdb.
      eapply Forall2_same_trans; [exact Hsame|].
      apply Forall2_touch. exact Hs.
    + apply IH.
      * rewrite (run_plan_db t pl d' rep0 (mkcounters 0 0)).
        apply all_present_after_run.
      * rewrite (run_plan_db t pl d' rep0 (mkcounters 0 0)).
        apply settled_after_run.
      * rewrite Hdb.
        eapply Forall2_same_trans; [exact Hsame|].
        apply Forall2_touch. exact Hs.
Qed.

Lemma replay_length (fetch : feed -> fetched) (times : list timestamp) (d : db) :
  List.length (replay accepts fetch times d) = List.length times.
Proof.
  revert d. induction times as [|t times IH]; intros d; simpl;
    [reflexivity | now rewrite IH].
Qed.

(** C1: after an import that committed, every replay of the same payload,
    however many and at whatever times, commits too, reports nothing added
    (in the total and for each feed), and leaves every row as the first
    import left it except for its update timestamp; no row is inserted. *)
Theorem import_replay_idempotent (fetch : feed -> fetched) (now : timestamp)
  (d d1 : db) (rep1 : report) (times : list timestamp) :
  import_data accepts now fetch d = (d1, Ok rep1) ->
  List.length (replay accepts fetch times d1) = List.length times /\
  Forall (replay_is_neutral d1) (replay accepts fetch times d1).
Proof.
  intros H. split; [apply replay_length|].
  rewrite import_data_plan in H.
  destruct (plan accepts fetch URLS) as [pl|e] eqn:Hpl; [|discriminate].
  injection H as Hd1 _.
  set (rep0 := mkreport [] (mkcounters 0 0)) in *.
  rewrite (run_plan_db now pl d rep0 (mkcounters 0 0)) in Hd1.
  apply (replay_neutral_from fetch pl d1 times d1 Hpl).
  - rewrite <- Hd1. apply all_present_after_run.
  - rewrite <- Hd1. apply settled_after_run.
  - apply Forall2_same_refl.
Qed.

End Idempotence.

Section OneTransaction.

Variable accepts : Params -> bool.

Lemma plan_items_raise_indep (now : timestamp) (f : feed) (items : list pyval)
  (st : db * counters) (e : exn) (seq : Z) :
  process_items accepts now f items st = Raised e seq ->
  plan_items accepts f items = Raise e.
Proof.
  rewrite process_items_plan.
  destruct (plan_items accepts f items); simpl; congruence.
Qed.

Lemma plan_raises (fetch : feed -> fetched) (feeds : list feed) (f : feed)
  (data : pyval) (e : exn) :
  In f feeds -> fetch f = Fetched data ->
  (items <- iterate data ;; plan_items accepts f items) = Raise e ->
  exists e', plan accepts fetch feeds = Raise e'.
Proof.
  intros Hin Hf He. induction feeds as [|g feeds IH]; [destruct Hin|].
  simpl. destruct Hin as [-> | Hin].
  - rewrite Hf. destruct (iterate data) as [items|e1]; simpl in *.
    + rewrite He. simpl. eexists; reflexivity.
    + eexists; reflexivity.
  - destruct (IH Hin) as [e' He'].
    destruct (fetch g) as [dg|]; [|exists e'; exact He'].
    destruct (iterate dg) as [ig|]; simpl; [|eexists; reflexivity].
    destruct (plan_items accepts g ig); simpl; [|eexists; reflexivity].
    rewrite He'. simpl. eexists; reflexivity.
Qed.

(** C2, as amended: both feeds run inside one transaction. A run that
    raises leaves every row of the store as it found it; a batch that
    raises partway, in either feed, makes the whole run raise, so the rows
    written for the other feed are rolled back with it; only a feed that
    failed to load is skipped while the other is processed. *)
Theorem import_is_one_transaction (now : timestamp) (fetch : feed -> fetched)
  (d : db) :
  (forall e, snd (import_data accepts now fetch d) = Raise e ->
             stations (fst (import_data accepts now fetch d)) = stations d) /\
  (forall f data st e seq,
      fetch f = Fetched data ->
      process_batch accepts now f data st = Raised e seq ->
      exists e',
        snd (import_data accepts now fetch d) = Raise e' /\
        stations (fst (import_data accepts now fetch d)) = stations d) /\
  (fetch Eco = FetchFailed ->
   import_data accepts now fetch d
   = transaction d (fun conn =>
       process_feeds accepts now fetch [NonEco]
                     (conn, mkreport [] (mkcounters 0 0)))) /\
  (fetch NonEco = FetchFailed ->
   import_data accepts now fetch d
   = transaction d (fun conn =>
       process_feeds accepts now fetch [Eco]
                     (conn, mkreport [] (mkcounters 0 0)))).
Proof.
  split; [|split; [|split]].
  - intros e. unfold import_data, transaction.
    destruct (process_feeds accepts now fetch URLS
                (d, mkreport [] (mkcounters 0 0))) as [[d' a]|e' seq];
      simpl; [discriminate | reflexivity].
  - intros f data st e seq Hf He.
    assert (Hp : (items <- iterate data ;; plan_items accepts f items) = Raise e).
    { unfold process_batch in He.
      destruct (iterate data) as [items|e1]; simpl in *; [|congruence].
      eapply plan_items_raise_indep. exact He. }
    destruct (plan_raises fetch URLS f data e) as [e' He']; try assumption.
    { destruct f; simpl; auto. }
    exists e'. rewrite import_data_plan, He'. split; reflexivity.
  - intros Hf. unfold import_data, URLS. simpl. rewrite Hf. reflexivity.
  - intros Hf. unfold import_data, URLS, transaction. simpl.
    destruct (fetch Eco) as [de|]; [|rewrite Hf; reflexivity].
    destruct (process_batch accepts now Eco de (d, mkcounters 0 0))
      as [[conn' c]|]; simpl; [|reflexivity].
    rewrite Hf. reflexivity.
Qed.

End OneTransaction.

(** *** The sample runs *)

Lemma upsert_existing_row_witness :
  exists r',
    nth_error
      (stations (upsert 200 lenina
                   (mkParams (PStr "AZS 1") (PStr "ZAO") PNone (PStr "Lenina 1")
                             PNone None false PNone PNone)
                   (fst (import_data accept_all 100 fetch_both empty_db)))) 0
    = Some r' /\
    id r' = 1 /\ created_at r' = 100 /\ admarea r' = PStr "ZAO" /\
    eco_status r' = false /\ latitude r' = PNone /\ updated_at r' = 200.
Proof.
  destruct (upsert_existing_row 200 lenina
              (mkParams (PStr "AZS 1") (PStr "ZAO") PNone (PStr "Lenina 1")
                        PNone None false PNone PNone)
              (fst (import_data accept_all 100 fetch_both empty_db)) 0
              (mkStation 1 "AZS 1" (PStr "CAO") (PStr "Arbat") "Lenina 1"
                 (PStr "Neft") (Some (mkdate 2023 3 4)) false
                 (PFloat 55.71) (PFloat 37.61) 100 100))
    as (r' & H0 & Hid & Hc & _ & _ & Ha & _ & _ & _ & He & Hl & _ & Hu & _).
  - vm_compute. reflexivity.
  - reflexivity.
  - exists r'. repeat split; assumption.
Defined.

Lemma import_replay_idempotent_witness :
  List.length
    (replay accept_all fetch_both [200; 300]
       (fst (import_data accept_all 100 fetch_both empty_db))) = 2%nat /\
  Forall (replay_is_neutral (fst (import_data accept_all 100 fetch_both empty_db)))
    (replay accept_all fetch_both [200; 300]
       (fst (import_data accept_all 100 fetch_both empty_db))).
Proof.
  apply (import_replay_idempotent accept_all fetch_both 100 empty_db
           (fst (import_data accept_all 100 fetch_both empty_db))
           (mkreport [(Eco, mkcounters 1 0); (NonEco, mkcounters 0 1)]
                     (mkcounters 1 1))
           [200; 300]).
  vm_compute. reflexivity.
Defined.

(** The claim of C2 fails: the second item of the non-eco feed raises, the
    run raises, and the station of the eco feed, whose batch had gone
    through, is not in the store afterwards. *)
Lemma import_failure_rolls_back_both_feeds :
  process_batch accept_all 100 Eco (PList [lenina_eco])
                (empty_db, mkcounters 0 0)
  = Returned
      (mkdb [mkStation 1 "AZS 1" (PStr "CAO") (PStr "Arbat") "Lenina 1"
               (PStr "Neft") (Some (mkdate 2023 2 1)) true
               (PFloat 55.7) (PFloat 37.6) 100 100] 2,
       mkcounters 1 0) /\
  snd (import_data accept_all 100 fetch_broken empty_db)
  = Raise AttributeError /\
  stations (fst (import_data accept_all 100 fetch_broken empty_db)) = [].
Proof.
  repeat split; vm_compute; reflexivity.
Qed.

Lemma import_is_one_transaction_witness :
  exists e',
    snd (import_data accept_all 100 fetch_broken empty_db) = Raise e' /\
    stations (fst (import_data accept_all 100 fetch_broken empty_db))
    = stations empty_db.
Proof.
  destruct (import_is_one_transaction accept_all 100 fetch_broken empty_db)
    as (_ & H & _).
  apply (H NonEco (PList [mira_non_eco; PInt 5])
           (empty_db, mkcounters 0 0) AttributeError 2).
  - reflexivity.
  - vm_compute. reflexivity.
Defined.

(** *** Counting *)

Lemma run_ops_counters (now : timestamp) (ops : list op) (d : db) (c : counters) :
  snd (run_ops now ops (d, c))
  = mkcounters (added c + count_outcome false (outcomes now ops d))
               (updated c + count_outcome true (outcomes now ops d)).
Proof.
  revert d c. induction ops as [|o ops IH]; intros d c.
  - unfold count_outcome. simpl. rewrite !Z.add_0_r. destruct c; reflexivity.
  - change (run_ops now (o :: ops) (d, c))
      with (run_ops now ops (step now (d, c) o)).
    unfold step. cbn [fst snd]. rewrite IH.
    unfold count_outcome. cbn [outcomes filter snd].
    destruct (select_exists (stations d) (fst o));
      cbn [Bool.eqb added updated List.length]; f_equal; lia.
Qed.

(** The outcomes on one key: the first operation on it finds it or not as
    the store had it, every later one finds it. *)
Lemma outcomes_of_key (now : timestamp) (k : key) (ops : list op) (d : db) :
  filter (fun e => key_eqb (fst e) k) (outcomes now ops d)
  = match filter (fun o => key_eqb (fst o) k) ops with
    | [] => []
    | _ :: rest =>
        (k, select_exists (stations d) k) :: map (fun _ => (k, true)) rest
    end.
Proof.
  revert d. induction ops as [|o ops IH]; intros d; [reflexivity|].
  cbn [outcomes filter fst]. destruct (key_eqb (fst o) k) eqn:E.
  - apply key_eqb_eq in E. rewrite E. f_equal. rewrite IH.
    rewrite select_exists_upsert, key_eqb_refl, orb_true_r.
    destruct (filter (fun o0 => key_eqb (fst o0) k) ops); reflexivity.
  - rewrite IH, select_exists_upsert, E, orb_false_r. reflexivity.
Qed.

Lemma tally_filter (k : key) (b : bool) (l : list (key * bool)) :
  tally k b l
  = count_outcome b (filter (fun e => key_eqb (fst e) k) l).
Proof.
  unfold tally, count_outcome. f_equal. f_equal.
  induction l as [|e l IH]; [reflexivity|]. simpl.
  destruct (key_eqb (fst e) k); simpl.
  - destruct (Bool.eqb (snd e) b); simpl; now rewrite IH.
  - exact IH.
Qed.

Lemma count_outcome_all_true (k : key) (b : bool) (rest : list op) :
  count_outcome b (map (fun _ : op => (k, true)) rest)
  = if b then Z.of_nat (List.length rest) else 0.
Proof.
  unfold count_outcome. induction rest as [|o rest IH].
  - destruct b; reflexivity.
  - cbn [map filter snd]. destruct b; cbn [Bool.eqb].
    + cbn [List.length]. cbn [List.length] in IH. lia.
    + exact IH.
Qed.

Lemma count_outcome_cons (b : bool) (e : key * bool) (l : list (key * bool)) :
  count_outcome b (e :: l)
  = (if Bool.eqb (snd e) b then 1 else 0) + count_outcome b l.
Proof.
  unfold count_outcome. cbn [filter].
  destruct (Bool.eqb (snd e) b); cbn [List.length]; lia.
Qed.

Lemma tally_of_key (now : timestamp) (k : key) (ops : list op) (d : db) :
  (0 < occurrences k ops)%nat ->
  tally k false (outcomes now ops d)
  = (if select_exists (stations d) k then 0 else 1) /\
  tally k true (outcomes now ops d)
  = Z.of_nat (occurrences k ops)
    - (if select_exists (stations d) k then 0 else 1).
Proof.
  intros Hocc. rewrite !tally_filter, outcomes_of_key.
  unfold occurrences in *.
  destruct (filter (fun o => key_eqb (fst o) k) ops) as [|o rest];
    [simpl in Hocc; lia|].
  rewrite !count_outcome_cons, !count_outcome_all_true. cbn [snd List.length].
  unfold op in *.
  destruct (select_exists (stations d) k); cbn [Bool.eqb]; split; lia.
Qed.

Lemma occurrences_pos (k : key) (ops : list op) :
  In k (map fst ops) -> (0 < occurrences k ops)%nat.
Proof.
  intros H. apply in_map_iff in H. destruct H as (o & Ho & Hin).
  unfold occurrences.
  assert (Hf : In o (filter (fun o => key_eqb (fst o) k) ops)).
  { apply filter_In. split; [exact Hin|]. rewrite Ho. apply key_eqb_refl. }
  destruct (filter (fun o => key_eqb (fst o) k) ops); [destruct Hf | simpl; lia].
Qed.

Lemma last_for_in (k : key) (ops : list op) :
  In k (map fst ops) ->
  exists p, last_for k ops = Some p /\ In (k, p) ops.
Proof.
  induction ops as [|o ops IH]; intros H; [destruct H|].
  simpl in H. simpl.
  destruct (last_for k ops) as [p|] eqn:E.
  - assert (Hin : In (k, p) ops).
    { clear IH H. induction ops as [|o' ops IH]; [discriminate|].
      simpl in E. destruct (last_for k ops) as [q|] eqn:E'.
      - injection E as <-. right. apply IH. reflexivity.
      - destruct (key_eqb k (fst o')) eqn:Ek; [|discriminate].
        injection E as <-. apply key_eqb_eq in Ek. left.
        destruct o'; simpl in *. now subst. }
    exists p. split; [reflexivity | right; exact Hin].
  - destruct H as [H | H].
    + rewrite H, key_eqb_refl. exists (snd o). split; [reflexivity|].
      left. destruct o; simpl in *. now subst.
    + destruct (IH H) as (p & Hp & _). discriminate.
Qed.

(** *** The two feeds on one key *)

Lemma normalize_eco_status (f : feed) (item : pyval) (p : Params) :
  normalize f item = Ok (Some p) -> p_eco_status p = is_eco f.
Proof.
  intros H. unfold normalize in H. split_binds H.
  injection H as <-. reflexivity.
Qed.

Section CrossFeed.

Variable accepts : Params -> bool.

Lemma plan_items_eco_status (f : feed) (items : list pyval) (ops : list op) :
  plan_items accepts f items = Ok ops ->
  forall o, In o ops -> p_eco_status (snd o) = is_eco f.
Proof.
  revert ops. induction items as [|item items IH]; intros ops H o Ho.
  - injection H as <-. destruct Ho.
  - simpl in H.
    destruct (plan_item accepts f item) as [x|] eqn:E; [|discriminate].
    destruct (plan_items accepts f items) as [ops'|]; [|discriminate].
    simpl in H. injection H as <-.
    destruct x as [x|]; [|eapply IH; [reflexivity | exact Ho]].
    destruct Ho as [<- | Ho]; [|eapply IH; [reflexivity | exact Ho]].
    unfold plan_item in E.
    destruct (normalize f item) as [[p|]|] eqn:En; simpl in E; try discriminate.
    destruct (bind_key p); simpl in E; [|discriminate].
    destruct (accepts p); [|discriminate].
    injection E as <-. simpl. eapply normalize_eco_status. exact En.
Qed.

(** C10, as amended: when both feeds load, a key [K] occurs in both and the
    run commits, the row of [K] carries the last non-eco record of [K] in
    every updatable field, so its eco_status is [False]. The counters of the
    two feeds are the tallies of the outcomes. Of the eco feed's operations
    on [K], one is counted as added if [K] was not in the store before the
    run and none if it was, and the others are counted as updated; all of
    the non-eco feed's are counted as updated. So a key that was absent and
    occurs once in each feed counts for 1 added and 1 updated, and a key
    that was present for 0 added and 2 updated. *)
Theorem cross_feed_overwrite (now : timestamp) (fetch : feed -> fetched)
  (d d' : db) (rep : report) (de dn : pyval) (ie ine : list pyval)
  (eco_ops non_ops : list op) (K : key) :
  fetch Eco = Fetched de -> iterate de = Ok ie ->
  plan_items accepts Eco ie = Ok eco_ops ->
  fetch NonEco = Fetched dn -> iterate dn = Ok ine ->
  plan_items accepts NonEco ine = Ok non_ops ->
  In K (map fst eco_ops) -> In K (map fst non_ops) ->
  import_data accepts now fetch d = (d', Ok rep) ->
  let mid := fst (run_ops now eco_ops (d, mkcounters 0 0)) in
  (select_exists (stations d') K = true /\
   exists p,
     last_for K non_ops = Some p /\ p_eco_status p = false /\
     forall r, In r (stations d') -> station_key r = K ->
               r = do_update (updated_at r) p r /\ eco_status r = false) /\
  (exists ce cn,
     per_feed rep = [(Eco, ce); (NonEco, cn)] /\
     totals rep = mkcounters (added ce + added cn) (updated ce + updated cn) /\
     added ce = count_outcome false (outcomes now eco_ops d) /\
     updated ce = count_outcome true (outcomes now eco_ops d) /\
     added cn = count_outcome false (outcomes now non_ops mid) /\
     updated cn = count_outcome true (outcomes now non_ops mid)) /\
  tally K false (outcomes now eco_ops d)
  = (if select_exists (stations d) K then 0 else 1) /\
  tally K true (outcomes now eco_ops d)
  = Z.of_nat (occurrences K eco_ops)
    - (if select_exists (stations d) K then 0 else 1) /\
  tally K false (outcomes now non_ops mid) = 0 /\
  tally K true (outcomes now non_ops mid) = Z.of_nat (occurrences K non_ops).
Proof.
  intros Hfe Hie Hpe Hfn Hin Hpn HKe HKn Hrun mid.
  assert (Hpl : plan accepts fetch URLS = Ok [(Eco, eco_ops); (NonEco, non_ops)]).
  { unfold URLS. simpl. rewrite Hfe, Hie. simpl. rewrite Hpe. simpl.
    rewrite Hfn, Hin. simpl. rewrite Hpn. reflexivity. }
  rewrite import_data_plan, Hpl in Hrun.
  set (rep0 := mkreport [] (mkcounters 0 0)) in *.
  assert (Hd' : fst (run_plan now [(Eco, eco_ops); (NonEco, non_ops)] (d, rep0))
                = d') by congruence.
  assert (Hrep : snd (run_plan now [(Eco, eco_ops); (NonEco, non_ops)] (d, rep0))
                 = rep) by congruence.
  clear Hrun.
  assert (Hdb : d' = fst (run_ops now (eco_ops ++ non_ops) (d, mkcounters 0 0))).
  { rewrite <- Hd'.
    rewrite (run_plan_db now _ d rep0 (mkcounters 0 0)).
    unfold all_ops. simpl. now rewrite app_nil_r. }
  destruct (last_for_in K non_ops HKn) as (p & Hp & Hinp).
  assert (Hpeco : p_eco_status p = false)
    by apply (plan_items_eco_status NonEco ine non_ops Hpn (K, p) Hinp).
  assert (Hmid : select_exists (stations mid) K = true).
  { unfold mid. rewrite select_exists_run_ops.
    apply orb_true_iff. right. apply existsb_exists.
    apply in_map_iff in HKe. destruct HKe as (o & Ho & Hino).
    exists o. split; [exact Hino|]. rewrite Ho. apply key_eqb_refl. }
  split; [|split].
  - split.
    + rewrite Hdb, run_ops_app. fold mid.
      rewrite select_exists_run_ops.
      replace (fst (run_ops now eco_ops (d, mkcounters 0 0))) with mid
        by reflexivity.
      rewrite Hmid. reflexivity.
    + exists p. split; [exact Hp|]. split; [exact Hpeco|].
      intros r Hr Hk.
      assert (Hs : r = do_update (updated_at r) p r).
      { rewrite Hdb in Hr.
        apply (settled_after_run now (eco_ops ++ non_ops) (d, mkcounters 0 0) r p Hr).
        rewrite last_for_app, Hk, Hp. reflexivity. }
      split; [exact Hs|]. rewrite Hs. exact Hpeco.
  - rewrite <- Hrep. cbn [run_plan fst snd].
    assert (Hc1 := run_ops_counters now eco_ops d (mkcounters 0 0)).
    assert (Hc2 := run_ops_counters now non_ops mid (mkcounters 0 0)).
    unfold mid in *. clear Hmid Hdb Hd' Hrep.
    destruct (run_ops now eco_ops (d, mkcounters 0 0)) as [m1 c1].
    cbn [fst snd] in *.
    destruct (run_ops now non_ops (m1, mkcounters 0 0)) as [m2 c2].
    cbn [fst snd per_feed totals added updated app] in *.
    exists c1, c2. split; [reflexivity|].
    split; [reflexivity|].
    rewrite Hc1, Hc2. cbn [added updated].
    repeat split; reflexivity.
  - destruct (tally_of_key now K eco_ops d (occurrences_pos K eco_ops HKe))
      as [Ha Hu].
    destruct (tally_of_key now K non_ops mid (occurrences_pos K non_ops HKn))
      as [Ha' Hu'].
    rewrite Hmid in Ha', Hu'. rewrite Z.sub_0_r in Hu'.
    repeat split; assumption.
Qed.

End CrossFeed.

(** The claim of C10 fails on a store that already has the key: the one
    station of both feeds counts for nothing added and two updated. *)
Lemma cross_feed_on_existing_key :
  snd (import_data accept_all 200 fetch_both
         (fst (import_data accept_all 100 fetch_both empty_db)))
  = Ok (mkreport [(Eco, mkcounters 0 1); (NonEco, mkcounters 0 1)]
                 (mkcounters 0 2)) /\
  select_exists
    (stations (fst (import_data accept_all 100 fetch_both empty_db))) lenina
  = true.
Proof.
  split; vm_compute; reflexivity.
Qed.

Lemma cross_feed_overwrite_witness :
  snd (import_data accept_all 100 fetch_both empty_db)
  = Ok (mkreport [(Eco, mkcounters 1 0); (NonEco, mkcounters 0 1)]
                 (mkcounters 1 1)) /\
  (forall r,
      In r (stations (fst (import_data accept_all 100 fetch_both empty_db))) ->
      station_key r = lenina -> eco_status r = false) /\
  tally lenina false
    (outcomes 100 [(lenina, mkParams (PStr "AZS 1") (PStr "CAO") (PStr "Arbat")
                      (PStr "Lenina 1") (PStr "Neft") (Some (mkdate 2023 2 1))
                      true (PFloat 55.7) (PFloat 37.6))] empty_db) = 1.
Proof.
  pose proof (cross_feed_overwrite accept_all 100 fetch_both empty_db
    (fst (import_data accept_all 100 fetch_both empty_db))
    (mkreport [(Eco, mkcounters 1 0); (NonEco, mkcounters 0 1)] (mkcounters 1 1))
    (PList [lenina_eco]) (PList [lenina_non_eco])
    [lenina_eco] [lenina_non_eco]
    [(lenina, mkParams (PStr "AZS 1") (PStr "CAO") (PStr "Arbat")
                (PStr "Lenina 1") (PStr "Neft") (Some (mkdate 2023 2 1))
                true (PFloat 55.7) (PFloat 37.6))]
    [(lenina, mkParams (PStr "AZS 1") (PStr "CAO") (PStr "Arbat")
                (PStr "Lenina 1") (PStr "Neft") (Some (mkdate 2023 3 4))
                false (PFloat 55.71) (PFloat 37.61))]
    lenina) as H.
  destruct H as ((_ & p & _ & _ & Hrow) & _ & Ha & _).
  - reflexivity.
  - reflexivity.
  - vm_compute. reflexivity.
  - reflexivity.
  - reflexivity.
  - vm_compute. reflexivity.
  - left. reflexivity.
  - left. reflexivity.
  - vm_compute. reflexivity.
  - split; [vm_compute; reflexivity|]. split.
    + intros r Hr Hk. apply (Hrow r Hr Hk).
    + exact Ha.
Defined.

(** ** The matcher on character classes *)

Lemma span_split (p : ascii -> bool) (s : string) :
  s = (fst (span p s) ++ snd (span p s))%string.
Proof.
  induction s as [|c s IH]; simpl; [reflexivity|].
  destruct (p c); [|reflexivity].
  destruct (span p s) as [a b]. simpl in *. now rewrite <- IH.
Qed.

Lemma span_all (p : ascii -> bool) (s : string) :
  all_of p (fst (span p s)) = true.
Proof.
  induction s as [|c s IH]; simpl; [reflexivity|].
  destruct (p c) eqn:E; [|reflexivity].
  destruct (span p s) as [a b]. simpl in *. now rewrite E, IH.
Qed.

Lemma span_stop (p : ascii -> bool) (s : string) (c : ascii) (r : string) :
  snd (span p s) = String c r -> p c = false.
Proof.
  induction s as [|c0 s IH]; simpl; [discriminate|].
  destruct (p c0) eqn:E.
  - destruct (span p s) as [a b]. simpl in *. exact IH.
  - simpl. intros H. injection H as <- _. exact E.
Qed.

Lemma span_app (p : ascii -> bool) (a b : string) :
  all_of p a = true ->
  match b with String c _ => p c = false | EmptyString => True end ->
  span p (a ++ b) = (a, b).
Proof.
  intros Ha Hb. induction a as [|c a IH]; simpl in *.
  - destruct b as [|c r]; [reflexivity|]. simpl. now rewrite Hb.
  - apply andb_true_iff in Ha. destruct Ha as [Hc Ha].
    rewrite Hc, (IH Ha). reflexivity.
Qed.

(** A greedy class star at the end of the pattern takes the longest run. *)
Lemma star_match_last (p : ascii -> bool) (s : string) (caps : captures) :
  star_match p s caps (fun s' c' => Some (s', c'))
  = Some (snd (span p s), caps).
Proof.
  induction s as [|c s IH]; simpl; [reflexivity|].
  destruct (p c); [|reflexivity].
  rewrite IH. destruct (span p s). reflexivity.
Qed.

(** A greedy class star followed by something that cannot start inside the
    class also takes the longest run: giving characters back never helps. *)
Lemma star_match_committed (p : ascii -> bool) (k : cont) (s : string)
  (caps : captures) :
  (forall c r cs, p c = true -> k (String c r) cs = None) ->
  star_match p s caps k = k (snd (span p s)) caps.
Proof.
  intros Hk. induction s as [|c s IH]; simpl; [reflexivity|].
  destruct (p c) eqn:E; [|reflexivity].
  rewrite IH. destruct (span p s) as [a b]. simpl.
  destruct (k b caps); [reflexivity|]. apply Hk. exact E.
Qed.

Lemma digit_not_dot (c : ascii) : digit c = true -> Ascii.eqb "." c = false.
Proof.
  destruct c as [[] [] [] [] [] [] [] []]; try reflexivity; discriminate.
Qed.

Lemma digit_not_sign (c : ascii) : digit c = true -> sign c = false.
Proof.
  destruct c as [[] [] [] [] [] [] [] []]; try reflexivity; discriminate.
Qed.

Lemma sign_not_digit (c : ascii) : sign c = true -> digit c = false.
Proof.
  destruct c as [[] [] [] [] [] [] [] []]; try reflexivity; discriminate.
Qed.

Lemma sign_not_dot (c : ascii) : sign c = true -> Ascii.eqb "." c = false.
Proof.
  destruct c as [[] [] [] [] [] [] [] []]; try reflexivity; discriminate.
Qed.

Lemma dot_not_sign (c : ascii) : Ascii.eqb "." c = true -> sign c = false.
Proof.
  destruct c as [[] [] [] [] [] [] [] []]; try reflexivity; discriminate.
Qed.

Lemma decimal_tail_match (s : string) :
  rmatch decimal_tail s [] (fun s' c' => Some (s', c'))
  = match snd (span digit s) with
    | String c1 r2 =>
        if Ascii.eqb "." c1 && negb (fst (span digit r2) =? "")%string
        then Some (snd (span digit r2), [])
        else None
    | EmptyString => None
    end.
Proof.
  unfold decimal_tail. cbn [rmatch].
  rewrite star_match_committed.
  - destruct (snd (span digit s)) as [|c1 r2]; [reflexivity|].
    cbn [rmatch chr plus]. destruct (Ascii.eqb "." c1); [|reflexivity].
    destruct r2 as [|c2 r3]; [reflexivity|].
    cbn [span]. destruct (digit c2) eqn:E; [|reflexivity].
    rewrite star_match_last. destruct (span digit r3). reflexivity.
  - intros c r cs Hc. cbn [rmatch chr]. now rewrite (digit_not_dot c Hc).
Qed.

(** The backtracking matcher on [NUM] finds what [num_at] reads. *)
Lemma re_match_NUM (s : string) :
  re_match NUM s
  = match num_at s with
    | Some (_, rest) => Some (rest, [])
    | None => None
    end.
Proof.
  unfold re_match, NUM.
  change (rmatch (Alt (Seq (Opt (Cls sign)) decimal_tail) (plus digit)) s []
            (fun s' c' => Some (s', c')))
    with (match
             match rmatch (Cls sign) s []
                     (fun s' c' => rmatch decimal_tail s' c'
                                     (fun s'' c'' => Some (s'', c''))) with
             | Some x => Some x
             | None => rmatch decimal_tail s [] (fun s'' c'' => Some (s'', c''))
             end
           with
           | Some x => Some x
           | None => rmatch (plus digit) s [] (fun s' c' => Some (s', c'))
           end).
  destruct s as [|c r].
  - reflexivity.
  - cbn [rmatch plus num_at]. destruct (sign c) eqn:Hs.
    + rewrite (decimal_tail_match r), (decimal_tail_match (String c r)).
      rewrite (sign_not_digit c Hs).
      cbn [span snd]. rewrite (sign_not_digit c Hs). cbn [snd].
      rewrite (sign_not_dot c Hs). cbn [andb].
      destruct (span digit r) as [ip r1]. cbn [snd].
      destruct r1 as [|c1 r2]; [reflexivity|].
      destruct (span digit r2) as [fp r3]. cbn [fst snd].
      destruct (Ascii.eqb "." c1 && negb (fp =? ""))%string; reflexivity.
    + rewrite (decimal_tail_match (String c r)).
      destruct (span digit (String c r)) as [ip r1] eqn:Esp. cbn [snd].
      assert (Hwhole :
        (if digit c
         then star_match digit r [] (fun s' c' => Some (s', c'))
         else None)
        = match (if negb (ip =? "")%string then Some (ip, r1) else None) with
          | Some (_, rest) => Some (rest, [])
          | None => None
          end).
      { cbn [span] in Esp. destruct (digit c).
        - rewrite star_match_last. destruct (span digit r) as [a b].
          injection Esp as <- <-. reflexivity.
        - injection Esp as <- <-. reflexivity. }
      destruct r1 as [|c1 r2]; [exact Hwhole|].
      destruct (span digit r2) as [fp r3]. cbn [fst snd].
      destruct (Ascii.eqb "." c1 && negb (fp =? ""))%string;
        [reflexivity | exact Hwhole].
Qed.

(** ** [float] on what the pattern matches *)

Lemma string_app_cons (a b r : string) (c : ascii) :
  ((a ++ String c b) ++ r = a ++ String c (b ++ r))%string.
Proof. induction a as [|x a IH]; simpl; [reflexivity | now rewrite IH]. Qed.

Lemma length_pos_nonempty (s : string) :
  (s =? "")%string = false -> (0 < String.length s)%nat.
Proof. destruct s; [discriminate | simpl; lia]. Qed.

Lemma float_body_decimal (sgn : bool) (ip fp : string) (c1 : ascii) :
  all_of digit ip = true -> all_of digit fp = true ->
  Ascii.eqb "." c1 = true -> (fp =? "")%string = false ->
  exists x, float_body sgn (ip ++ String c1 fp) = Ok x.
Proof.
  intros Hip Hfp Hc Hne. unfold float_body.
  rewrite (span_app digit ip (String c1 fp) Hip).
  2:{ destruct (digit c1) eqn:E; [|reflexivity].
      apply digit_not_dot in E. congruence. }
  rewrite Ascii.eqb_sym, Hc, Hfp. cbn [andb].
  apply length_pos_nonempty in Hne.
  destruct (String.length ip + String.length fp =? 0)%nat eqn:E.
  - apply Nat.eqb_eq in E. lia.
  - eexists; reflexivity.
Qed.

Lemma float_body_integer (sgn : bool) (ip : string) :
  all_of digit ip = true -> (ip =? "")%string = false ->
  exists x, float_body sgn ip = Ok x.
Proof.
  intros Hip Hne. unfold float_body.
  assert (Hsp : span digit ip = (ip, EmptyString)).
  { pose proof (span_app digit ip EmptyString Hip I) as H.
    clear Hne. revert H. 
    replace (ip ++ "")%string with ip; [auto|].
    clear. induction ip as [|c s IH]; simpl; [reflexivity | now rewrite <- IH]. }
  rewrite Hsp. apply length_pos_nonempty in Hne.
  destruct (String.length ip + String.length "" =? 0)%nat eqn:E.
  - apply Nat.eqb_eq in E. lia.
  - eexists; reflexivity.
Qed.

Lemma py_float_unsigned (s : string) :
  match s with String c _ => sign c = false | EmptyString => True end ->
  py_float s = float_body false s.
Proof.
  destruct s as [|c r]; [reflexivity|]. intros H. unfold py_float.
  unfold sign in H. apply orb_false_iff in H. destruct H as [-> ->].
  reflexivity.
Qed.

Lemma py_float_signed (c : ascii) (r : string) :
  sign c = true ->
  exists sgn, py_float (String c r) = float_body sgn r.
Proof.
  intros H. unfold py_float. destruct (Ascii.eqb c "-") eqn:E1.
  - eexists; reflexivity.
  - unfold sign in H. rewrite E1 in H. simpl in H. rewrite H.
    eexists; reflexivity.
Qed.

(** What [num_at] reads is a prefix of the text, is not empty, and is a
    literal that [float] converts. *)
Lemma num_at_sound (s m rest : string) :
  num_at s = Some (m, rest) ->
  s = (m ++ rest)%string /\ (m =? "")%string = false /\
  exists x, py_float m = Ok x.
Proof.
  destruct s as [|c r]; [discriminate|]. cbn [num_at].
  destruct (sign c) eqn:Hs.
  - pose proof (span_split digit r) as Hsplit.
    pose proof (span_all digit r) as Hall.
    destruct (span digit r) as [ip r1]. cbn [fst snd] in *.
    destruct r1 as [|c1 r2]; [discriminate|].
    pose proof (span_split digit r2) as Hsplit2.
    pose proof (span_all digit r2) as Hall2.
    destruct (span digit r2) as [fp r3]. cbn [fst snd] in *.
    destruct (Ascii.eqb "." c1) eqn:Hd; [|discriminate].
    destruct (fp =? "")%string eqn:Hne; [discriminate|].
    cbn [andb negb]. intros H. injection H as <- <-.
    split; [|split].
    + simpl. rewrite string_app_cons, <- Hsplit2, <- Hsplit. reflexivity.
    + reflexivity.
    + destruct (py_float_signed c (ip ++ String c1 fp) Hs) as [sgn ->].
      apply float_body_decimal; assumption.
  - pose proof (span_split digit (String c r)) as Hsplit.
    pose proof (span_all digit (String c r)) as Hall.
    assert (Hhead : forall ip r1, span digit (String c r) = (ip, r1) ->
              forall t, match (ip ++ t)%string with
                        | String c0 _ => sign c0 = false \/ ip = EmptyString
                        | EmptyString => True
                        end).
    { intros ip r1 E t. cbn [span] in E. destruct (digit c) eqn:Ed.
      - destruct (span digit r). injection E as <- _. simpl. left. exact Hs.
      - injection E as <- _. simpl. destruct t; auto. }
    destruct (span digit (String c r)) as [ip r1] eqn:Esp. cbn [fst snd] in *.
    specialize (Hhead ip r1 eq_refl).
    assert (Hwhole : forall m rest,
              (if negb (ip =? "")%string then Some (ip, r1) else None)
              = Some (m, rest) ->
              String c r = (m ++ rest)%string /\ (m =? "")%string = false /\
              exists x, py_float m = Ok x).
    { intros m0 rest0 H. destruct (ip =? "")%string eqn:Hne; [discriminate|].
      injection H as <- <-. split; [exact Hsplit|]. split; [exact Hne|].
      rewrite py_float_unsigned.
      - apply float_body_integer; assumption.
      - specialize (Hhead EmptyString).
        replace (ip ++ "")%string with ip in Hhead
          by (clear; induction ip as [|c0 s IH]; simpl;
              [reflexivity | now rewrite <- IH]).
        destruct ip as [|c0 ip0]; [exact I|].
        destruct Hhead as [H|H]; [exact H | discriminate]. }
    destruct r1 as [|c1 r2]; [apply Hwhole|].
    pose proof (span_split digit r2) as Hsplit2.
    pose proof (span_all digit r2) as Hall2.
    destruct (span digit r2) as [fp r3]. cbn [fst snd] in *.
    destruct (Ascii.eqb "." c1) eqn:Hd; [|apply Hwhole].
    destruct (fp =? "")%string eqn:Hne; [apply Hwhole|].
    cbn [andb negb]. intros H. injection H as <- <-.
    split; [|split].
    + rewrite string_app_cons, <- Hsplit2. exact Hsplit.
    + destruct ip; reflexivity.
    + rewrite py_float_unsigned.
      * apply float_body_decimal; assumption.
      * specialize (Hhead (String c1 fp)).
        destruct ip as [|c0 ip0].
        -- simpl. apply dot_not_sign. exact Hd.
        -- simpl in *. destruct Hhead as [H|H]; [exact H | discriminate].
Qed.

Lemma string_length_app (a b : string) :
  String.length (a ++ b) = (String.length a + String.length b)%nat.
Proof. induction a as [|c a IH]; simpl; [reflexivity | now rewrite IH]. Qed.

Lemma take_app (a b : string) : take (String.length a) (a ++ b) = a.
Proof. induction a as [|c a IH]; simpl; [now destruct b | now rewrite IH]. Qed.

Lemma consumed_app (m rest : string) : consumed (m ++ rest) rest = m.
Proof.
  unfold consumed. rewrite string_length_app.
  replace (String.length m + String.length rest - String.length rest)%nat
    with (String.length m) by lia.
  apply take_app.
Qed.

(** Every text [findall] returns for [NUM] is one [float] converts. *)
Lemma findall_NUM_convertible (s : string) (skip : nat) :
  Forall (fun m => exists x, py_float m = Ok x) (findall_from NUM skip s).
Proof.
  revert skip. induction s as [|c s IH]; intros skip; [constructor|].
  cbn [findall_from]. destruct skip as [|n]; [|apply IH].
  rewrite re_match_NUM.
  destruct (num_at (String c s)) as [[m rest]|] eqn:E; [|apply IH].
  destruct (num_at_sound _ _ _ E) as (Hs & _ & Hx).
  rewrite Hs, consumed_app. constructor; [exact Hx | apply IH].
Qed.

Lemma findall_empty_text (r : regex) : findall r "" = [].
Proof. reflexivity. Qed.

Lemma firstn_two {A} (a b : A) (l : list A) : firstn 2 (a :: b :: l) = [a; b].
Proof. reflexivity. Qed.

(** ** [extract_coordinates] *)

(** X21. What [extract_coordinates] does, case by case. It never raises. A
    dict whose [coordinates] entry is a list of at least two elements yields
    the second and the first element as they are. An ASCII text in which
    the pattern finds at least two numbers yields the floats of the second
    and of the first. An ASCII text with fewer than two numbers, and every
    value that is neither a text nor such a dict, yields [(None, None)]. *)
Theorem extract_coordinates_cases (value : pyval) :
  (exists lat lon, extract_coordinates value = Ok (lat, lon)) /\
  (forall d coords,
      value = PDict d -> lookup d "coordinates" = Some (PList coords) ->
      (2 <= List.length coords)%nat ->
      extract_coordinates value = Ok (nth 1 coords PNone, nth 0 coords PNone)) /\
  (forall s a b rest,
      value = PStr s -> is_ascii s = true ->
      findall NUM s = a :: b :: rest ->
      exists lon lat,
        py_float a = Ok lon /\ py_float b = Ok lat /\
        extract_coordinates value = Ok (PFloat lat, PFloat lon)) /\
  (forall s,
      value = PStr s -> is_ascii s = true ->
      (List.length (findall NUM s) < 2)%nat ->
      extract_coordinates value = Ok (PNone, PNone)) /\
  ((forall s, value <> PStr s) ->
   (forall d coords,
       value = PDict d -> lookup d "coordinates" = Some (PList coords) ->
       (List.length coords < 2)%nat) ->
   extract_coordinates value = Ok (PNone, PNone)).
Proof.
  assert (Htext : forall s a b rest,
            findall NUM s = a :: b :: rest ->
            exists lon lat,
              py_float a = Ok lon /\ py_float b = Ok lat /\
              extract_coordinates (PStr s) = Ok (PFloat lat, PFloat lon)).
  { intros s a b rest Hf.
    pose proof (findall_NUM_convertible s 0) as Hall.
    fold (findall NUM s) in Hall. rewrite Hf in Hall.
    inversion Hall as [|? ? [lon Hlon] Hall']; subst.
    inversion Hall' as [|? ? [lat Hlat] _]; subst.
    exists lon, lat. split; [exact Hlon|]. split; [exact Hlat|].
    unfold extract_coordinates.
    destruct s as [|c s]; [discriminate Hf|].
    cbn [truthy negb String.eqb]. rewrite Hf. cbn [List.length Nat.leb].
    rewrite firstn_two. unfold unpack_two_floats. rewrite Hlon, Hlat.
    reflexivity. }
  assert (Hfew : forall s,
            (List.length (findall NUM s) < 2)%nat ->
            extract_coordinates (PStr s) = Ok (PNone, PNone)).
  { intros s Hlen. unfold extract_coordinates.
    destruct (negb (truthy (PStr s))); [reflexivity|].
    destruct (2 <=? List.length (findall NUM s))%nat eqn:E; [|reflexivity].
    apply Nat.leb_le in E. lia. }
  split; [|split; [|split; [|split]]].
  - destruct value as [| b | n | x | s | l | d];
      try (exists PNone, PNone; unfold extract_coordinates;
           match goal with
           | |- (if ?c then _ else _) = _ => destruct c; reflexivity
           end).
    + destruct (findall NUM s) as [|a [|b rest]] eqn:Hf.
      * exists PNone, PNone. apply Hfew. rewrite Hf. simpl. lia.
      * exists PNone, PNone. apply Hfew. rewrite Hf. simpl. lia.
      * destruct (Htext s a b rest Hf) as (lon & lat & _ & _ & H).
        exists (PFloat lat), (PFloat lon). exact H.
    + unfold extract_coordinates.
      destruct (negb (truthy (PDict d))); [eexists; eexists; reflexivity|].
      destruct (lookup d "coordinates") as [[| | | | | coords |]|];
        try (eexists; eexists; reflexivity).
      destruct (2 <=? List.length coords)%nat; eexists; eexists; reflexivity.
  - intros d coords -> Hl Hlen. unfold extract_coordinates.
    destruct d as [|kv d]; [discriminate Hl|].
    cbn [truthy negb]. rewrite Hl.
    apply Nat.leb_le in Hlen. rewrite Hlen. reflexivity.
  - intros s a b rest -> _ Hf. apply (Htext s a b rest Hf).
  - intros s -> _ Hlen. apply Hfew. exact Hlen.
  - intros Hns Hd. unfold extract_coordinates.
    destruct (negb (truthy value)); [reflexivity|].
    destruct value as [| b | n | x | s | l | d]; try reflexivity.
    + exfalso. apply (Hns s). reflexivity.
    + destruct (lookup d "coordinates") as [[| | | | | coords |]|] eqn:El;
        try reflexivity.
      specialize (Hd d coords eq_refl El).
      destruct (2 <=? List.length coords)%nat eqn:E; [|reflexivity].
      apply Nat.leb_le in E. lia.
Qed.

(** C5, where the code falls short of it. A [coordinates] list that holds
    no number is not answered with [(None, None)]: its two elements come
    back as they are, a text or [None] among them. And of a signed integer
    in a text the pattern reads the digits only: the longitude -30 is
    returned as 30, where -30.0 is returned as -30. *)
Lemma extract_coordinates_unchecked_elements :
  extract_coordinates (PDict [("coordinates", PList [PStr "a"; PStr "b"])])
  = Ok (PStr "b", PStr "a") /\
  extract_coordinates (PDict [("coordinates", PList [PNone; PFloat 55.7])])
  = Ok (PFloat 55.7, PNone) /\
  extract_coordinates (PStr "POINT(-30 55)") = Ok (PFloat 55, PFloat 30) /\
  extract_coordinates (PStr "POINT(-30.0 55)") = Ok (PFloat 55, PFloat (-30)).
Proof.
  repeat split; vm_compute; reflexivity.
Qed.

Lemma extract_coordinates_examples :
  extract_coordinates (PDict [("coordinates", PList [PFloat 30.5; PFloat 55.7])])
  = Ok (PFloat 55.7, PFloat 30.5) /\
  extract_coordinates (PStr "POINT(30.5 55.7)") = Ok (PFloat 55.7, PFloat 30.5) /\
  extract_coordinates (PStr "") = Ok (PNone, PNone) /\
  extract_coordinates (PStr "-37.5, +.25") = Ok (PFloat 0.25, PFloat (-37.5)) /\
  findall NUM "a-5 +3.25 1.2.3 -.5 7. 1e5"
  = ["5"; "+3.25"; "1.2"; ".3"; "-.5"; "7"; "1"; "5"]%string.
Proof.
  repeat split; vm_compute; reflexivity.
Qed.

Lemma extract_coordinates_cases_witness :
  extract_coordinates (PDict [("coordinates", PList [PFloat 30.5; PFloat 55.7])])
  = Ok (PFloat 55.7, PFloat 30.5) /\
  (exists lon lat,
     py_float "30.5" = Ok lon /\ py_float "55.7" = Ok lat /\
     extract_coordinates (PStr "POINT(30.5 55.7)") = Ok (PFloat lat, PFloat lon)) /\
  extract_coordinates (PStr "") = Ok (PNone, PNone) /\
  extract_coordinates (PInt 7) = Ok (PNone, PNone).
Proof.
  split; [|split; [|split]].
  - destruct (extract_coordinates_cases
                (PDict [("coordinates", PList [PFloat 30.5; PFloat 55.7])]))
      as (_ & H & _).
    apply (H [("coordinates", PList [PFloat 30.5; PFloat 55.7])]
             [PFloat 30.5; PFloat 55.7]).
    + reflexivity.
    + reflexivity.
    + simpl. lia.
  - destruct (extract_coordinates_cases (PStr "POINT(30.5 55.7)"))
      as (_ & _ & H & _).
    apply (H "POINT(30.5 55.7)" "30.5" "55.7" []).
    + reflexivity.
    + reflexivity.
    + vm_compute. reflexivity.
  - destruct (extract_coordinates_cases (PStr "")) as (_ & _ & _ & H & _).
    apply (H "").
    + reflexivity.
    + reflexivity.
    + simpl. lia.
  - destruct (extract_coordinates_cases (PInt 7)) as (_ & _ & _ & _ & H).
    apply H.
    + intros s. discriminate.
    + intros d coords H0. discriminate H0.
Defined.

(** ** Normalized records *)

Lemma extract_coordinates_text (s : string) (lat lon : pyval) :
  extract_coordinates (PStr s) = Ok (lat, lon) ->
  (lat = PNone /\ lon = PNone) \/
  (exists la lo, lat = PFloat la /\ lon = PFloat lo).
Proof.
  unfold extract_coordinates.
  destruct (negb (truthy (PStr s))).
  - intros H. injection H as <- <-. left. split; reflexivity.
  - destruct (2 <=? List.length (findall NUM s))%nat.
    + destruct (unpack_two_floats (firstn 2 (findall NUM s))) as [[lo la]|];
        simpl; [|discriminate].
      intros H. injection H as <- <-. right. exists la, lo. split; reflexivity.
    + intros H. injection H as <- <-. left. split; reflexivity.
Qed.

(** X22. A record that survives normalization has a name and an address
    that are not empty and the eco flag of its feed; where its [geoData] is
    a text, its latitude and longitude are both floats or both [None]. *)
Theorem normalized_record (f : feed) (item : pyval) (p : Params) :
  normalize f item = Ok (Some p) ->
  truthy (p_name p) = true /\ truthy (p_address p) = true /\
  p_eco_status p = is_eco f /\
  exists cells geo,
    get item "Cells" (PDict []) = Ok cells /\
    get cells "geoData" PNone = Ok geo /\
    (forall s, geo = PStr s ->
       (p_latitude p = PNone /\ p_longitude p = PNone) \/
       (exists la lo, p_latitude p = PFloat la /\ p_longitude p = PFloat lo)).
Proof.
  intros H. pose proof (normalize_eco_status f item p H) as Heco.
  unfold normalize in H.
  destruct (get item "Cells" (PDict [])) as [cells|] eqn:Ec; [|discriminate].
  cbn [bind] in H.
  destruct (get cells "FullName" PNone) as [nm|] eqn:En; [|discriminate].
  cbn [bind] in H.
  destruct (get cells "Address" PNone) as [ad|] eqn:Ea; [|discriminate].
  cbn [bind] in H.
  destruct (truthy nm) eqn:Tn; [|discriminate].
  destruct (truthy ad) eqn:Ta; [|discriminate].
  cbn [negb orb] in H.
  destruct (get cells "geoData" PNone) as [geo|] eqn:Eg; [|discriminate].
  cbn [bind] in H.
  destruct (extract_coordinates geo) as [[lat lon]|] eqn:Ex; [|discriminate].
  cbn [bind] in H.
  split_binds H. injection H as <-. cbn.
  split; [exact Tn|]. split; [exact Ta|]. split; [reflexivity|].
  exists cells, geo. repeat split; try assumption.
  intros s ->. apply (extract_coordinates_text s lat lon Ex).
Qed.

(** C4, where the code falls short of it. Nothing on the import path
    checks a range or that both coordinates are there: a [geoData] text
    with the numbers 500 and 700 gives a record with latitude 700 and
    longitude 500, values the admin endpoints refuse to write, and a
    [coordinates] list with a null element gives a record with a latitude
    and no longitude. *)
Lemma normalized_record_out_of_range :
  normalize NonEco far_away
  = Ok (Some (mkParams (PStr "AZS 3") (PStr "CAO") (PStr "Arbat")
                       (PStr "Polevaya 7") (PStr "Neft") None false
                       (PFloat 700) (PFloat 500))) /\
  coordinates_in_range (Some 700%float) (Some 500%float) = false /\
  normalize Eco half_coordinates
  = Ok (Some (mkParams (PStr "AZS 4") (PStr "CAO") (PStr "Arbat")
                       (PStr "Lesnaya 2") (PStr "Neft") None true
                       (PFloat 55.7) PNone)).
Proof.
  repeat split; vm_compute; reflexivity.
Qed.

Lemma normalized_record_witness :
  truthy (PStr "AZS 1") = true /\ false = is_eco NonEco.
Proof.
  destruct (normalized_record NonEco lenina_non_eco
              (mkParams (PStr "AZS 1") (PStr "CAO") (PStr "Arbat")
                        (PStr "Lenina 1") (PStr "Neft") (Some (mkdate 2023 3 4))
                        false (PFloat 55.71) (PFloat 37.61)))
    as (Hn & _ & He & _).
  - vm_compute. reflexivity.
  - split; [exact Hn | exact He].
Defined.

(** ** [safe_parse_date] *)

(** C6: [safe_parse_date] never raises; a value that is empty (or otherwise
    false) gives [None]; otherwise day.month.year is tried first and its date
    is the result when it matches, then year-month-day and its date is the
    result when it matches, and [None] when neither does. Which texts match
    a format is the library's business: the property holds for every
    [parse]. *)
Theorem safe_parse_date_order
  (parse : pyval -> list directive -> result date) (date_str : pyval) :
  (exists r, safe_parse_date_with parse date_str = Ok r) /\
  (truthy date_str = false ->
   safe_parse_date_with parse date_str = Ok None) /\
  (truthy date_str = true ->
   forall d, parse date_str fmt_dmy = Ok d ->
             safe_parse_date_with parse date_str = Ok (Some d)) /\
  (truthy date_str = true ->
   forall e d, parse date_str fmt_dmy = Raise e ->
               parse date_str fmt_ymd = Ok d ->
               safe_parse_date_with parse date_str = Ok (Some d)) /\
  (forall e1 e2, parse date_str fmt_dmy = Raise e1 ->
                 parse date_str fmt_ymd = Raise e2 ->
                 safe_parse_date_with parse date_str = Ok None).
Proof.
  unfold safe_parse_date_with. split; [|split; [|split; [|split]]].
  - destruct (negb (truthy date_str)); [eexists; reflexivity|].
    cbn [try_formats].
    destruct (parse date_str fmt_dmy); [eexists; reflexivity|].
    destruct (parse date_str fmt_ymd); eexists; reflexivity.
  - intros ->. reflexivity.
  - intros -> d H. cbn [negb try_formats]. rewrite H. reflexivity.
  - intros -> e d H1 H2. cbn [negb try_formats]. rewrite H1, H2. reflexivity.
  - intros e1 e2 H1 H2. destruct (negb (truthy date_str)); [reflexivity|].
    cbn [try_formats]. rewrite H1, H2. reflexivity.
Qed.

Lemma safe_parse_date_examples :
  safe_parse_date (PStr "01.02.2023") = Ok (Some (mkdate 2023 2 1)) /\
  safe_parse_date (PStr "2023-02-01") = Ok (Some (mkdate 2023 2 1)) /\
  safe_parse_date (PStr "garbage") = Ok None /\
  safe_parse_date (PStr "") = Ok None /\
  safe_parse_date PNone = Ok None /\
  safe_parse_date (PStr "29.02.2023") = Ok None /\
  safe_parse_date (PInt 20230201) = Ok None.
Proof.
  repeat split; vm_compute; reflexivity.
Qed.

Lemma safe_parse_date_order_witness :
  safe_parse_date (PStr "") = Ok None /\
  safe_parse_date (PStr "01.02.2023") = Ok (Some (mkdate 2023 2 1)) /\
  safe_parse_date (PStr "2023-02-01") = Ok (Some (mkdate 2023 2 1)) /\
  safe_parse_date (PStr "garbage") = Ok None.
Proof.
  split; [|split; [|split]].
  - destruct (safe_parse_date_order strptime (PStr "")) as (_ & H & _).
    apply H. reflexivity.
  - destruct (safe_parse_date_order strptime (PStr "01.02.2023"))
      as (_ & _ & H & _).
    apply H; [reflexivity|]. vm_compute. reflexivity.
  - destruct (safe_parse_date_order strptime (PStr "2023-02-01"))
      as (_ & _ & _ & H & _).
    apply (H eq_refl ValueError); vm_compute; reflexivity.
  - destruct (safe_parse_date_order strptime (PStr "garbage"))
      as (_ & _ & _ & _ & H).
    apply (H ValueError ValueError); vm_compute; reflexivity.
Defined.

(** * Further properties of the import *)

Lemma select_exists_false_notin (rows : list Station) (k : key) :
  select_exists rows k = false -> ~ In k (map station_key rows).
Proof.
  unfold select_exists. intros H Hin.
  apply in_map_iff in Hin. destruct Hin as (r & Hr & Hin).
  rewrite <- not_true_iff_false, existsb_exists in H. apply H.
  exists r. split; [exact Hin|]. unfold has_key. rewrite Hr. apply key_eqb_refl.
Qed.

Lemma NoDup_snoc {A} (l : list A) (a : A) :
  NoDup l -> ~ In a l -> NoDup (l ++ [a]).
Proof.
  induction 1 as [|x l Hx Hl IH]; intros Ha; simpl.
  - constructor; [intros [] | constructor].
  - constructor.
    + intros Hin. apply in_app_or in Hin. destruct Hin as [Hin | [<- | []]].
      * contradiction.
      * apply Ha. left. reflexivity.
    + apply IH. intros Hin. apply Ha. right. exact Hin.
Qed.

Lemma new_row_key (now : timestamp) (i : Z) (k : key) (p : Params) :
  station_key (new_row now i k p) = k.
Proof. destruct k. reflexivity. Qed.

Lemma upsert_keeps_unique (now : timestamp) (k : key) (p : Params) (d : db) :
  NoDup (map station_key (stations d)) ->
  NoDup (map station_key (stations (upsert now k p d))).
Proof.
  intros H. unfold upsert.
  destruct (select_exists (stations d) k) eqn:E; cbn [stations].
  - rewrite map_map.
    replace (map (fun r => station_key
                    (if has_key k r then do_update now p r else r))
                 (stations d))
      with (map station_key (stations d)); [exact H|].
    apply map_ext. intros r. destruct (has_key k r); reflexivity.
  - rewrite map_app. cbn [map]. rewrite new_row_key.
    apply NoDup_snoc; [exact H|].
    apply select_exists_false_notin. exact E.
Qed.

Lemma run_ops_keeps_unique (now : timestamp) (ops : list op)
  (st : db * counters) :
  NoDup (map station_key (stations (fst st))) ->
  NoDup (map station_key (stations (fst (run_ops now ops st)))).
Proof.
  revert st. induction ops as [|o ops IH]; intros st H; [exact H|].
  change (run_ops now (o :: ops) st) with (run_ops now ops (step now st o)).
  apply IH. unfold step. cbn [fst]. apply upsert_keeps_unique. exact H.
Qed.

Lemma upsert_keeps_rows (now : timestamp) (k : key) (p : Params) (d : db)
  (i : nat) (r : Station) :
  nth_error (stations d) i = Some r ->
  nth_error (stations (upsert now k p d)) i
  = Some (if has_key k r then do_update now p r else r).
Proof.
  intros Hi. unfold upsert.
  destruct (select_exists (stations d) k) eqn:E; cbn [stations].
  - rewrite nth_error_map, Hi. reflexivity.
  - rewrite nth_error_app1 by (apply nth_error_Some; congruence).
    rewrite Hi. f_equal.
    destruct (has_key k r) eqn:Ek; [|reflexivity].
    exfalso. unfold select_exists in E.
    rewrite <- not_true_iff_false, existsb_exists in E. apply E.
    exists r. split; [eapply nth_error_In; exact Hi | exact Ek].
Qed.

Lemma run_ops_keeps_rows (now : timestamp) (ops : list op)
  (st : db * counters) (i : nat) (r : Station) :
  nth_error (stations (fst st)) i = Some r ->
  nth_error (stations (fst (run_ops now ops st))) i = Some (touch now ops r).
Proof.
  revert st r. induction ops as [|o ops IH]; intros st r Hi; [exact Hi|].
  change (run_ops now (o :: ops) st) with (run_ops now ops (step now st o)).
  change (touch now (o :: ops) r)
    with (touch now ops
            (if has_key (fst o) r then do_update now (snd o) r else r)).
  apply IH. unfold step. cbn [fst]. apply upsert_keeps_rows. exact Hi.
Qed.

Lemma touch_identity (now : timestamp) (ops : list op) (r : Station) :
  id (touch now ops r) = id r /\ name (touch now ops r) = name r /\
  address (touch now ops r) = address r /\
  created_at (touch now ops r) = created_at r.
Proof.
  rewrite touch_last. destruct (last_for (station_key r) ops); repeat split.
Qed.

Lemma last_for_none (k : key) (ops : list op) :
  ~ In k (map fst ops) -> last_for k ops = None.
Proof.
  induction ops as [|o ops IH]; intros H; [reflexivity|].
  simpl. rewrite IH by (intros Hin; apply H; right; exact Hin).
  destruct (key_eqb k (fst o)) eqn:E; [|reflexivity].
  apply key_eqb_eq in E. exfalso. apply H. left. symmetry. exact E.
Qed.

Lemma run_ops_growth (now : timestamp) (ops : list op) (d : db) (c : counters) :
  added (snd (run_ops now ops (d, c))) - added c
  = Z.of_nat (List.length (stations (fst (run_ops now ops (d, c)))))
    - Z.of_nat (List.length (stations d)) /\
  added (snd (run_ops now ops (d, c))) + updated (snd (run_ops now ops (d, c)))
  = added c + updated c + Z.of_nat (List.length ops) /\
  added c <= added (snd (run_ops now ops (d, c))) /\
  updated c <= updated (snd (run_ops now ops (d, c))).
Proof.
  revert d c. induction ops as [|o ops IH]; intros d c.
  - cbn. lia.
  - change (run_ops now (o :: ops) (d, c))
      with (run_ops now ops (step now (d, c) o)).
    unfold step. cbn [fst snd].
    match goal with
    | |- context [run_ops now ops (?d1, ?c1)] =>
        destruct (IH d1 c1) as (H1 & H2 & H4 & H5);
        set (out := run_ops now ops (d1, c1)) in *
    end.
    change (List.length (o :: ops)) with (S (List.length ops)).
    unfold upsert in *.
    destruct (select_exists (stations d) (fst o));
      cbn [stations next_id added updated] in *;
      rewrite ?length_map, ?length_app in *; cbn [List.length] in *; lia.
Qed.

Lemma run_plan_growth (now : timestamp) (pl : list (feed * list op)) (d : db)
  (rep : report) :
  added (totals (snd (run_plan now pl (d, rep)))) - added (totals rep)
  = Z.of_nat (List.length (stations (fst (run_plan now pl (d, rep)))))
    - Z.of_nat (List.length (stations d)) /\
  added (totals (snd (run_plan now pl (d, rep))))
  + updated (totals (snd (run_plan now pl (d, rep))))
  = added (totals rep) + updated (totals rep)
    + Z.of_nat (List.length (all_ops pl)) /\
  added (totals rep) <= added (totals (snd (run_plan now pl (d, rep)))) /\
  updated (totals rep) <= updated (totals (snd (run_plan now pl (d, rep)))).
Proof.
  revert d rep. induction pl as [|[f ops] pl IH]; intros d rep.
  - cbn. lia.
  - cbn [run_plan fst snd].
    destruct (run_ops_growth now ops d (mkcounters 0 0))
      as (G1 & G2 & G4 & G5).
    destruct (run_ops now ops (d, mkcounters 0 0)) as [conn' c].
    cbn [fst snd added updated] in *.
    match goal with
    | |- context [run_plan now pl (?d1, ?rep1)] =>
        destruct (IH d1 rep1) as (H1 & H2 & H4 & H5);
        set (out := run_plan now pl (d1, rep1)) in *
    end.
    cbn [totals added updated] in *.
    unfold all_ops in *. cbn [map List.concat snd]. rewrite length_app.
    lia.
Qed.

(** After a run at time [now], a row whose key the run mentions holds the
    last record of that key and the run's time as update timestamp. *)
Lemma stamped_after_run (now : timestamp) (ops : list op) (st : db * counters)
  (r : Station) (p : Params) :
  In r (stations (fst (run_ops now ops st))) ->
  last_for (station_key r) ops = Some p ->
  r = do_update now p r.
Proof.
  revert r p. induction ops as [|o ops IH] using rev_ind; intros r p Hr Hl.
  - discriminate Hl.
  - rewrite run_ops_app in Hr. simpl in Hr. unfold step in Hr. simpl in Hr.
    rewrite last_for_app in Hl. simpl in Hl.
    apply in_upsert in Hr. destruct Hr as [(r0 & Hr0 & ->) | ->].
    + unfold has_key in *.
      destruct (key_eqb (station_key r0) (fst o)) eqn:Ek.
      * rewrite do_update_key, Ek in Hl. injection Hl as <-. reflexivity.
      * rewrite Ek in Hl. apply IH; assumption.
    + rewrite new_row_key, key_eqb_refl in Hl. injection Hl as <-.
      reflexivity.
Qed.

Lemma plan_items_app (accepts : Params -> bool) (f : feed)
  (l1 l2 : list pyval) :
  plan_items accepts f (l1 ++ l2)
  = (a <- plan_items accepts f l1 ;;
     b <- plan_items accepts f l2 ;; Ok (a ++ b)%list).
Proof.
  induction l1 as [|item l1 IH]; simpl.
  - destruct (plan_items accepts f l2); reflexivity.
  - destruct (plan_item accepts f item) as [o|]; simpl; [|reflexivity].
    rewrite IH.
    destruct (plan_items accepts f l1) as [a|]; simpl; [|reflexivity].
    destruct (plan_items accepts f l2) as [b|]; simpl; [|reflexivity].
    destruct o; reflexivity.
Qed.

Section MergeInvariants.

Variable accepts : Params -> bool.

(** X1. The run keeps the natural key unique: if no two rows of the store
    share [(name, address)] before [import_data], none do after it. *)
Theorem import_keeps_keys_unique (now : timestamp) (fetch : feed -> fetched)
  (d : db) :
  NoDup (map station_key (stations d)) ->
  NoDup (map station_key (stations (fst (import_data accepts now fetch d)))).
Proof.
  intros H. rewrite import_data_plan.
  destruct (plan accepts fetch URLS) as [pl|e]; cbn [fst]; [|exact H].
  rewrite (run_plan_db now pl d _ (mkcounters 0 0)).
  apply run_ops_keeps_unique. exact H.
Qed.

(** X2. The run never deletes or moves a row: every row of the store is
    still at its position afterwards with its id, name, address and creation
    time, and a row whose key no record of the payload has is unchanged in
    every field. *)
Theorem import_keeps_rows (now : timestamp) (fetch : feed -> fetched) (d : db)
  (i : nat) (r : Station) :
  nth_error (stations d) i = Some r ->
  exists r',
    nth_error (stations (fst (import_data accepts now fetch d))) i = Some r' /\
    id r' = id r /\ name r' = name r /\ address r' = address r /\
    created_at r' = created_at r /\
    (forall pl, plan accepts fetch URLS = Ok pl ->
                ~ In (station_key r) (map fst (all_ops pl)) -> r' = r).
Proof.
  intros Hi. rewrite import_data_plan.
  destruct (plan accepts fetch URLS) as [pl|e]; cbn [fst].
  - rewrite (run_plan_db now pl d _ (mkcounters 0 0)).
    exists (touch now (all_ops pl) r).
    split; [apply (run_ops_keeps_rows now (all_ops pl) (d, mkcounters 0 0) i r Hi)|].
    destruct (touch_identity now (all_ops pl) r) as (H1 & H2 & H3 & H4).
    repeat (split; [assumption|]).
    intros pl' Hpl' Hnot. injection Hpl' as <-.
    rewrite touch_last, (last_for_none _ _ Hnot). reflexivity.
  - exists r. repeat (split; [first [exact Hi | reflexivity]|]).
    intros pl' Hpl'. discriminate Hpl'.
Qed.

(** X3. In a run that commits, the total reported as added is the number
    of rows the run inserted, and added and updated together count every
    record that was executed. *)
Theorem import_counts_inserted_rows (now : timestamp)
  (fetch : feed -> fetched) (d d' : db) (rep : report)
  (pl : list (feed * list op)) :
  import_data accepts now fetch d = (d', Ok rep) ->
  plan accepts fetch URLS = Ok pl ->
  added (totals rep)
  = Z.of_nat (List.length (stations d')) - Z.of_nat (List.length (stations d)) /\
  added (totals rep) + updated (totals rep)
  = Z.of_nat (List.length (all_ops pl)) /\
  0 <= added (totals rep) /\ 0 <= updated (totals rep).
Proof.
  intros Hrun Hpl. rewrite import_data_plan, Hpl in Hrun.
  set (rep0 := mkreport [] (mkcounters 0 0)) in *.
  assert (Hd : fst (run_plan now pl (d, rep0)) = d') by congruence.
  assert (Hr : snd (run_plan now pl (d, rep0)) = rep) by congruence.
  destruct (run_plan_growth now pl d rep0) as (H1 & H2 & H4 & H5).
  rewrite Hd, Hr in *. cbn [rep0 totals added updated] in *. lia.
Qed.

(** X4. Last record wins: in a run that commits at time [now], every key
    that a record of the payload has is in the store afterwards, and its row
    holds the fields of the last record processed for that key (the eco feed
    first, then the non-eco feed, each in the order of its items) and [now]
    as update timestamp. *)
Theorem import_last_record_wins (now : timestamp) (fetch : feed -> fetched)
  (d d' : db) (rep : report) (pl : list (feed * list op)) (k : key) :
  import_data accepts now fetch d = (d', Ok rep) ->
  plan accepts fetch URLS = Ok pl ->
  In k (map fst (all_ops pl)) ->
  exists p,
    last_for k (all_ops pl) = Some p /\
    select_exists (stations d') k = true /\
    forall r, In r (stations d') -> station_key r = k ->
      admarea r = p_admarea p /\ district r = p_district p /\
      owner r = p_owner p /\ test_date r = p_test_date p /\
      eco_status r = p_eco_status p /\ latitude r = p_latitude p /\
      longitude r = p_longitude p /\ updated_at r = now.
Proof.
  intros Hrun Hpl Hk. rewrite import_data_plan, Hpl in Hrun.
  set (rep0 := mkreport [] (mkcounters 0 0)) in *.
  assert (Hd : d' = fst (run_ops now (all_ops pl) (d, mkcounters 0 0))).
  { rewrite <- (run_plan_db now pl d rep0 (mkcounters 0 0)). congruence. }
  destruct (last_for_in k (all_ops pl) Hk) as (p & Hp & _).
  exists p. split; [exact Hp|]. split.
  - rewrite Hd, select_exists_run_ops. apply orb_true_iff. right.
    apply existsb_exists. apply in_map_iff in Hk.
    destruct Hk as (o & Ho & Hin). exists o. split; [exact Hin|].
    rewrite Ho. apply key_eqb_refl.
  - intros r Hr Hkey. rewrite Hd in Hr.
    assert (Hs : r = do_update now p r).
    { apply (stamped_after_run now (all_ops pl) (d, mkcounters 0 0) r p Hr).
      rewrite Hkey. exact Hp. }
    rewrite Hs. repeat split.
Qed.

(** X5. An item without a name or without an address is dropped and the
    batch goes on: with it or without it in the feed, the store and the
    counters come out the same. *)
Theorem items_without_key_are_skipped (now : timestamp) (f : feed)
  (item cells nm ad : pyval) (before after : list pyval)
  (st : db * counters) :
  get item "Cells" (PDict []) = Ok cells ->
  get cells "FullName" PNone = Ok nm ->
  get cells "Address" PNone = Ok ad ->
  truthy nm = false \/ truthy ad = false ->
  process_items accepts now f (before ++ item :: after) st
  = process_items accepts now f (before ++ after) st.
Proof.
  intros Hc Hn Ha Hfalsy.
  assert (Hnorm : normalize f item = Ok None).
  { unfold normalize. rewrite Hc. cbn [bind]. rewrite Hn. cbn [bind].
    rewrite Ha. cbn [bind].
    destruct Hfalsy as [-> | ->]; [reflexivity|].
    destruct (truthy nm); reflexivity. }
  revert st. induction before as [|b before IH]; intros st.
  - cbn [app process_items]. unfold process_item. rewrite Hnorm. reflexivity.
  - cbn [app process_items].
    destruct (process_item accepts now f b st) as [st'|e seq];
      [apply IH | reflexivity].
Qed.

End MergeInvariants.

Lemma import_keeps_keys_unique_witness :
  NoDup (map station_key
           (stations (fst (import_data accept_all 200 fetch_mira_only lenina_db)))).
Proof.
  apply (import_keeps_keys_unique accept_all 200 fetch_mira_only lenina_db).
  simpl. constructor; [intros [] | constructor].
Defined.

Lemma import_keeps_rows_witness :
  exists r',
    nth_error (stations (fst (import_data accept_all 200 fetch_mira_only
                                lenina_db))) 0 = Some r' /\
    id r' = 1 /\ created_at r' = 100 /\ updated_at r' = 100 /\
    eco_status r' = false.
Proof.
  destruct (import_keeps_rows accept_all 200 fetch_mira_only lenina_db 0
              (mkStation 1 "AZS 1" (PStr "CAO") (PStr "Arbat") "Lenina 1"
                 (PStr "Neft") (Some (mkdate 2023 3 4)) false
                 (PFloat 55.71) (PFloat 37.61) 100 100))
    as (r' & Hn & Hid & _ & _ & Hc & Hsame).
  - reflexivity.
  - exists r'. split; [exact Hn|]. split; [exact Hid|]. split; [exact Hc|].
    rewrite (Hsame [(NonEco, [(("AZS 2", "Mira 5"), mira_record)])]).
    + split; reflexivity.
    + vm_compute. reflexivity.
    + simpl. intros [H | []]. discriminate H.
Defined.

Lemma import_counts_inserted_rows_witness :
  added (totals (mkreport [(NonEco, mkcounters 1 0)] (mkcounters 1 0)))
  = Z.of_nat (List.length
                (stations (fst (import_data accept_all 200 fetch_mira_only
                                  lenina_db))))
    - Z.of_nat (List.length (stations lenina_db)).
Proof.
  apply (import_counts_inserted_rows accept_all 200 fetch_mira_only lenina_db
           (fst (import_data accept_all 200 fetch_mira_only lenina_db))
           (mkreport [(NonEco, mkcounters 1 0)] (mkcounters 1 0))
           [(NonEco, [(("AZS 2", "Mira 5"), mira_record)])]).
  - vm_compute. reflexivity.
  - vm_compute. reflexivity.
Defined.

Lemma import_last_record_wins_witness :
  exists p,
    last_for lenina [(lenina, lenina_eco_record); (lenina, lenina_non_eco_record)]
    = Some p /\
    select_exists
      (stations (fst (import_data accept_all 100 fetch_both empty_db))) lenina
    = true.
Proof.
  destruct (import_last_record_wins accept_all 100 fetch_both empty_db
              (fst (import_data accept_all 100 fetch_both empty_db))
              (mkreport [(Eco, mkcounters 1 0); (NonEco, mkcounters 0 1)]
                        (mkcounters 1 1))
              [(Eco, [(lenina, lenina_eco_record)]);
               (NonEco, [(lenina, lenina_non_eco_record)])]
              lenina)
    as (p & Hp & Hs & _).
  - vm_compute. reflexivity.
  - vm_compute. reflexivity.
  - left. reflexivity.
  - exists p. split; [exact Hp | exact Hs].
Defined.

Lemma items_without_key_are_skipped_witness :
  process_items accept_all 100 NonEco
    ([lenina_non_eco] ++ nameless :: [mira_non_eco])
    (empty_db, mkcounters 0 0)
  = process_items accept_all 100 NonEco ([lenina_non_eco] ++ [mira_non_eco])
      (empty_db, mkcounters 0 0).
Proof.
  apply (items_without_key_are_skipped accept_all 100 NonEco nameless
           (PDict [("FullName", PStr ""); ("Address", PStr "Lesnaya 9");
                   ("AdmArea", PStr "CAO"); ("District", PStr "Arbat");
                   ("Owner", PStr "Neft"); ("TestDate", PNone);
                   ("geoData", PNone)])
           (PStr "") (PStr "Lesnaya 9")).
  - reflexivity.
  - reflexivity.
  - reflexivity.
  - left. reflexivity.
Defined.

(** * Further properties of the clustering *)

Lemma argmin_from_bound (mp : float) (min_ind i : nat) (l : list float) :
  argmin_from mp min_ind i l = min_ind \/
  (i <= argmin_from mp min_ind i l < i + List.length l)%nat.
Proof.
  revert mp min_ind i. induction l as [|x l IH]; intros mp min_ind i.
  - left. reflexivity.
  - cbn [argmin_from List.length]. destruct (negb (mp <=? x)%float).
    + destruct (is_nan x); [right; lia|].
      destruct (IH x i (S i)) as [-> | H]; right; lia.
    + destruct (IH mp min_ind (S i)) as [H | H]; [left; exact H | right; lia].
Qed.

Lemma argmin_bound (l : list float) (j : nat) :
  argmin l = Ok j -> (j < List.length l)%nat.
Proof.
  destruct l as [|x l]; [discriminate|]. cbn [argmin List.length].
  intros H. injection H as <-. destruct (is_nan x); [lia|].
  destruct (argmin_from_bound x 0 1 l); lia.
Qed.

Lemma assign_shape (points centroids : list point) (l : list nat) :
  assign points centroids = Ok l ->
  List.length l = List.length points /\
  Forall (fun j => (j < List.length centroids)%nat) l.
Proof.
  revert l. induction points as [|p points IH]; intros l H.
  - cbn [assign] in H. destruct centroids; [discriminate|].
    injection H as <-. split; [reflexivity | constructor].
  - cbn [assign] in H.
    destruct (argmin (map (distance p) centroids)) as [j|] eqn:Ej;
      [|discriminate].
    cbn [bind] in H.
    destruct (assign points centroids) as [rest|]; [|discriminate].
    cbn [bind] in H. injection H as <-.
    destruct (IH rest eq_refl) as [Hlen Hall]. split.
    + cbn [List.length]. now rewrite Hlen.
    + constructor; [|exact Hall].
      apply argmin_bound in Ej. now rewrite length_map in Ej.
Qed.

Lemma assign_returns (points : list point) (c : point) (centroids : list point) :
  exists l, assign points (c :: centroids) = Ok l.
Proof.
  induction points as [|p points [rest IH]].
  - exists []. reflexivity.
  - cbn [assign map argmin bind]. rewrite IH. cbn [bind].
    eexists. reflexivity.
Qed.

Lemma recompute_length (i : nat) (centroids points : list point)
  (labels : list nat) :
  List.length (recompute i centroids points labels) = List.length centroids.
Proof.
  revert i. induction centroids as [|c cs IH]; intros i; [reflexivity|].
  cbn [recompute List.length]. now rewrite IH.
Qed.

Lemma refine_shape (iters : nat) (points centroids : list point)
  (labels : option (list nat)) (l : list nat) :
  refine iters points centroids labels = Ok l ->
  (forall l0, labels = Some l0 ->
     List.length l0 = List.length points /\
     Forall (fun j => (j < List.length centroids)%nat) l0) ->
  List.length l = List.length points /\
  Forall (fun j => (j < List.length centroids)%nat) l.
Proof.
  revert centroids labels. induction iters as [|iters IH];
    intros centroids labels H Hl.
  - cbn [refine] in H. destruct labels as [l0|]; [|discriminate].
    injection H as <-. apply Hl. reflexivity.
  - cbn [refine] in H.
    destruct (assign points centroids) as [l1|] eqn:Ea; [|discriminate].
    cbn [bind] in H. pose proof (assign_shape _ _ _ Ea) as Hs.
    destruct (allclose centroids (recompute 0 centroids points l1)).
    + injection H as <-. exact Hs.
    + apply IH in H.
      * now rewrite recompute_length in H.
      * intros l0 E. injection E as <-. now rewrite recompute_length.
Qed.

Lemma refine_returns (iters : nat) (points : list point) (c : point)
  (centroids : list point) (labels : option (list nat)) :
  (0 < iters)%nat \/ labels <> None ->
  exists l, refine iters points (c :: centroids) labels = Ok l.
Proof.
  revert c centroids labels. induction iters as [|iters IH];
    intros c centroids labels H.
  - destruct H as [H | H]; [lia|]. cbn [refine].
    destruct labels as [l0|]; [eexists; reflexivity | contradiction].
  - cbn [refine]. destruct (assign_returns points c centroids) as [l1 ->].
    cbn [bind].
    destruct (allclose (c :: centroids)
                       (recompute 0 (c :: centroids) points l1));
      [eexists; reflexivity|].
    cbn [recompute]. apply IH. right. discriminate.
Qed.

Lemma take_rows_length (points : list point) (idx : list nat)
  (rows : list point) :
  take_rows points idx = Ok rows -> List.length rows = List.length idx.
Proof.
  revert rows. induction idx as [|i idx IH]; intros rows H.
  - injection H as <-. reflexivity.
  - cbn [take_rows] in H. destruct (nth_error points i); [|discriminate].
    destruct (take_rows points idx) as [rest|]; [|discriminate].
    cbn [bind] in H. injection H as <-. cbn [List.length].
    now rewrite (IH rest eq_refl).
Qed.

Lemma members_none (i : nat) (points : list point) (labels : list nat) :
  ~ In i labels -> members i points labels = [].
Proof.
  revert labels. induction points as [|p points IH]; intros labels H;
    [reflexivity|].
  destruct labels as [|l labels]; [reflexivity|]. cbn [members].
  destruct (Nat.eqb l i) eqn:E.
  - apply Nat.eqb_eq in E. exfalso. apply H. left. exact E.
  - apply IH. intros Hin. apply H. right. exact Hin.
Qed.

Lemma recompute_nth (j : nat) (centroids points : list point)
  (labels : list nat) (i : nat) (c : point) :
  nth_error centroids i = Some c ->
  nth_error (recompute j centroids points labels) i
  = Some match members (j + i) points labels with
         | [] => c
         | sel => mean sel
         end.
Proof.
  revert j i. induction centroids as [|c0 cs IH]; intros j i H.
  - destruct i; discriminate H.
  - destruct i as [|i]; cbn [recompute nth_error] in *.
    + injection H as <-. now rewrite Nat.add_0_r.
    + rewrite (IH (S j) i H). now rewrite Nat.add_succ_r.
Qed.

Section ClusteringShape.

Variable rng : Type.
Variable seed : Z -> rng.
Variable sample : rng -> nat -> nat -> list nat * rng.

Lemma init_centroids_ok (g : rng) (points : list point) (k : Z) :
  sample_contract rng sample ->
  (0 <= k <= Z.of_nat (List.length points))%Z ->
  exists cs g',
    init_centroids rng seed sample g points k = (Ok cs, g') /\
    List.length cs = Z.to_nat k.
Proof.
  intros Hs Hk. unfold init_centroids, random_choice.
  replace ((k <? 0) || (Z.of_nat (List.length points) <? k))%Z with false.
  2:{ symmetry. apply orb_false_iff. split; apply Z.ltb_ge; lia. }
  destruct (Hs (seed 42) (List.length points) (Z.to_nat k))
    as (Hlen & _ & Hlt); [lia|].
  destruct (sample (seed 42) (List.length points) (Z.to_nat k)) as [idx g'].
  cbn [fst] in *. cbn [bind]. rewrite (take_rows_in_range points idx Hlt).
  eexists. exists g'. split; [reflexivity|]. now rewrite length_map.
Qed.

(** X6. Whenever [simple_kmeans] returns, it returns one label per point,
    and (the draw meeting numpy's contract) every label is below [k]. *)
Theorem kmeans_labels_shape (g : rng) (points : list point) (k max_iters : Z)
  (labels : list nat) :
  sample_contract rng sample ->
  fst (simple_kmeans rng seed sample g points k max_iters) = Ok labels ->
  List.length labels = List.length points /\
  Forall (fun l => (Z.of_nat l < k)%Z) labels.
Proof.
  intros Hs. unfold simple_kmeans.
  destruct (Z.of_nat (List.length points) <? k)%Z eqn:Hlt.
  - cbn [fst]. intros H. injection H as <-. apply Z.ltb_lt in Hlt. split.
    + apply repeat_length.
    + apply Forall_forall. intros l Hl. apply repeat_spec in Hl. subst l. lia.
  - apply Z.ltb_ge in Hlt. destruct (k <? 0)%Z eqn:Hneg.
    + unfold init_centroids, random_choice. rewrite Hneg. cbn. discriminate.
    + apply Z.ltb_ge in Hneg.
      destruct (init_centroids_ok g points k Hs (conj Hneg Hlt))
        as (cs & g' & -> & Hlen).
      cbn [fst bind]. intros H. apply refine_shape in H.
      * destruct H as [H1 H2]. split; [exact H1|].
        eapply Forall_impl; [|exact H2]. cbn. intros l Hl. lia.
      * intros l0 E. discriminate E.
Qed.

(** X7. With a positive number of clusters not above the number of points
    and at least one pass allowed, [simple_kmeans] returns labels and does
    not raise. *)
Theorem kmeans_returns_on_valid_input (g : rng) (points : list point)
  (k max_iters : Z) :
  sample_contract rng sample ->
  (1 <= k <= Z.of_nat (List.length points))%Z -> (1 <= max_iters)%Z ->
  exists labels,
    fst (simple_kmeans rng seed sample g points k max_iters) = Ok labels.
Proof.
  intros Hs Hk Hm. unfold simple_kmeans.
  replace (Z.of_nat (List.length points) <? k)%Z with false
    by (symmetry; apply Z.ltb_ge; lia).
  destruct (init_centroids_ok g points k Hs) as (cs & g' & -> & Hlen); [lia|].
  cbn [fst bind]. destruct cs as [|c cs].
  - cbn [List.length] in Hlen. lia.
  - apply refine_returns. left. lia.
Qed.

(** X8. With no pass allowed ([max_iters] zero or negative) and a number of
    clusters between 0 and the number of points, the loop never binds
    [labels] and the call raises [UnboundLocalError]. *)
Theorem kmeans_without_iterations_raises (g : rng) (points : list point)
  (k max_iters : Z) :
  sample_contract rng sample ->
  (0 <= k <= Z.of_nat (List.length points))%Z -> (max_iters <= 0)%Z ->
  fst (simple_kmeans rng seed sample g points k max_iters)
  = Raise UnboundLocalError.
Proof.
  intros Hs Hk Hm. unfold simple_kmeans.
  replace (Z.of_nat (List.length points) <? k)%Z with false
    by (symmetry; apply Z.ltb_ge; lia).
  destruct (init_centroids_ok g points k Hs Hk) as (cs & g' & -> & _).
  cbn [fst bind].
  replace (Z.to_nat max_iters) with O by lia. reflexivity.
Qed.

End ClusteringShape.

(** X9. Recomputing the centroids keeps their number; a cluster to which
    no point was assigned keeps its centroid, and every other cluster gets
    the mean of the points assigned to it. *)
Theorem recompute_keeps_empty_clusters (centroids points : list point)
  (labels : list nat) (i : nat) (c : point) :
  nth_error centroids i = Some c ->
  List.length (recompute 0 centroids points labels) = List.length centroids /\
  (~ In i labels ->
   nth_error (recompute 0 centroids points labels) i = Some c) /\
  (members i points labels <> [] ->
   nth_error (recompute 0 centroids points labels) i
   = Some (mean (members i points labels))).
Proof.
  intros Hi. split; [apply recompute_length|].
  pose proof (recompute_nth 0 centroids points labels i c Hi) as H.
  cbn [Nat.add] in H. split.
  - intros Hnot. rewrite H, (members_none i points labels Hnot). reflexivity.
  - intros Hne. rewrite H.
    destruct (members i points labels); [contradiction | reflexivity].
Qed.

(** * The statistics endpoint *)

Lemma dict_set_fresh (d : list (string * Z)) (k : string) (v : Z) :
  ~ In k (map fst d) -> dict_set d k v = (d ++ [(k, v)])%list.
Proof.
  induction d as [|[k' v'] d IH]; intros H; [reflexivity|].
  cbn [dict_set]. destruct (k' =? k)%string eqn:E.
  - apply String.eqb_eq in E. exfalso. apply H. left. exact E.
  - cbn [app]. f_equal. apply IH. intros Hin. apply H. right. exact Hin.
Qed.

Lemma dict_of_rows_from (acc rows : list (string * Z)) :
  NoDup (map fst (acc ++ rows)%list) ->
  fold_left (fun d r => dict_set d (fst r) (snd r)) rows acc
  = (acc ++ rows)%list.
Proof.
  revert acc. induction rows as [|[k v] rows IH]; intros acc H.
  - now rewrite app_nil_r.
  - cbn [fold_left fst snd]. rewrite dict_set_fresh.
    + rewrite IH; rewrite <- app_assoc; [reflexivity | exact H].
    + rewrite map_app in H. cbn [map fst] in H.
      apply NoDup_remove_2 in H. intros Hin. apply H.
      apply in_or_app. left. exact Hin.
Qed.

Lemma collect_labelled (points : list coord_row) (labels : list nat) :
  List.length labels = List.length points ->
  forall n, (n <= List.length points)%nat ->
  exists pts,
    collect (map (labelled_point points labels) (seq 0 n)) = Ok pts /\
    List.length pts = n /\
    forall i lat lon eco,
      (i < n)%nat -> nth_error points i = Some (lat, lon, eco) ->
      exists c, nth_error labels i = Some c /\
                nth_error pts i = Some (mkpoint lat lon eco (Z.of_nat c)).
Proof.
  intros Hlen.
  assert (Hgen : forall n start, (start + n <= List.length points)%nat ->
    exists pts,
      collect (map (labelled_point points labels) (seq start n)) = Ok pts /\
      List.length pts = n /\
      forall i lat lon eco,
        (i < n)%nat -> nth_error points (start + i) = Some (lat, lon, eco) ->
        exists c, nth_error labels (start + i) = Some c /\
                  nth_error pts i = Some (mkpoint lat lon eco (Z.of_nat c))).
  { induction n as [|n IH]; intros start Hb.
    - exists []. split; [reflexivity|]. split; [reflexivity|]. intros; lia.
    - cbn [seq map collect].
      destruct (IH (S start)) as (rest & Hrest & Hl & Hnth); [lia|].
      unfold labelled_point at 1.
      destruct (nth_error points start) as [[[la lo] ec]|] eqn:Ep.
      2:{ apply nth_error_None in Ep. lia. }
      destruct (nth_error labels start) as [c0|] eqn:El.
      2:{ apply nth_error_None in El. lia. }
      cbn [bind]. rewrite Hrest. cbn [bind].
      eexists. split; [reflexivity|]. split; [cbn; now rewrite Hl|].
      intros i lat lon eco Hi Hp. destruct i as [|i].
      + rewrite Nat.add_0_r in *. rewrite Ep in Hp. injection Hp as <- <- <-.
        exists c0. split; [exact El | reflexivity].
      + rewrite Nat.add_succ_r in *. cbn [nth_error].
        apply (Hnth i lat lon eco); [lia | exact Hp]. }
  intros n Hn. destruct (Hgen n O) as (pts & H1 & H2 & H3); [lia|].
  exists pts. split; [exact H1|]. split; [exact H2|]. exact H3.
Qed.

Section StatsProperties.

Variable rng : Type.
Variable seed : Z -> rng.
Variable sample : rng -> nat -> nat -> list nat * rng.

(** X10. [api_get_stats] does not raise (the draw meeting numpy's
    contract). It reports [k = 3] when at least three stations have
    coordinates and [k = 1] otherwise; the scatter set has one point per
    coordinate row, in order, with that row's latitude, longitude and eco
    flag and a cluster in [[0, k)]. With fewer than three rows every cluster
    is 0 and the generator is not touched. *)
Theorem api_get_stats_scatter (g : rng) (by_district_rows : list (string * Z))
  (stations_rows : list coord_row) :
  sample_contract rng sample ->
  exists out g',
    api_get_stats rng seed sample g by_district_rows stations_rows
    = (Ok out, g') /\
    cs_k (clusters_scatter out)
    = (if (3 <=? List.length stations_rows)%nat then 3 else 1) /\
    List.length (cs_points (clusters_scatter out))
    = List.length stations_rows /\
    (forall i lat lon eco,
        nth_error stations_rows i = Some (lat, lon, eco) ->
        exists c,
          nth_error (cs_points (clusters_scatter out)) i
          = Some (mkpoint lat lon eco c) /\
          0 <= c < cs_k (clusters_scatter out)) /\
    ((List.length stations_rows < 3)%nat ->
     g' = g /\
     Forall (fun pt => sp_cluster pt = 0) (cs_points (clusters_scatter out))).
Proof.
  intros Hs. unfold api_get_stats.
  destruct (3 <=? List.length stations_rows)%nat eqn:E.
  - apply Nat.leb_le in E.
    set (coords := map (fun p : coord_row => (fst (fst p), snd (fst p)))
                       stations_rows).
    assert (Hc : @List.length point coords = List.length stations_rows)
      by apply length_map.
    unfold simple_kmeans.
    replace (Z.of_nat (@List.length point coords) <? 3)%Z with false
      by (symmetry; apply Z.ltb_ge; unfold point in *; lia).
    destruct (init_centroids_ok rng seed sample g coords 3 Hs)
      as (cs & g' & -> & Hlen); [unfold point in *; lia|].
    destruct cs as [|c0 cs]; [cbn in Hlen; lia|].
    destruct (refine_returns (Z.to_nat 100) coords c0 cs None) as [l Hl];
      [left; lia|].
    cbn [bind]. rewrite Hl. cbn [bind].
    destruct (refine_shape _ _ _ _ _ Hl) as [Hll Hrange];
      [intros l0 E0; discriminate E0|].
    rewrite Hc in Hll.
    destruct (collect_labelled stations_rows l Hll (List.length stations_rows))
      as (pts & Hpts & Hplen & Hnth); [lia|].
    rewrite Hpts. cbn [bind].
    eexists. exists g'. split; [reflexivity|]. cbn [clusters_scatter cs_k cs_points].
    split; [reflexivity|]. split; [exact Hplen|]. split.
    + intros i lat lon eco Hi.
      assert (Hlt : (i < List.length stations_rows)%nat)
        by (apply nth_error_Some; congruence).
      destruct (Hnth i lat lon eco Hlt Hi) as (c & Hc1 & Hc2).
      exists (Z.of_nat c). split; [exact Hc2|].
      rewrite Forall_forall in Hrange.
      pose proof (Hrange c (nth_error_In _ _ Hc1)) as Hb.
      rewrite Hlen in Hb. change (Z.to_nat 3) with 3%nat in Hb. lia.
    + intros Hlt. lia.
  - apply Nat.leb_gt in E.
    eexists. exists g. split; [reflexivity|].
    cbn [clusters_scatter cs_k cs_points].
    split; [reflexivity|]. split; [apply length_map|]. split.
    + intros i lat lon eco Hi. exists 0. split; [|lia].
      rewrite nth_error_map, Hi. reflexivity.
    + intros _. split; [reflexivity|].
      apply Forall_forall. intros pt Hin. apply in_map_iff in Hin.
      destruct Hin as (r & <- & _). reflexivity.
Qed.

(** X11. The [by_district] mapping keeps the rows of its query as they
    came, in their order (descending by count), as long as no area occurs
    twice among them, which [GROUP BY admarea] ensures. *)
Theorem api_get_stats_by_district (g : rng)
  (by_district_rows : list (string * Z)) (stations_rows : list coord_row)
  (out : stats) (g' : rng) :
  NoDup (map fst by_district_rows) ->
  api_get_stats rng seed sample g by_district_rows stations_rows
  = (Ok out, g') ->
  by_district out = by_district_rows.
Proof.
  intros Hnd H.
  assert (Hd : dict_of_rows by_district_rows = by_district_rows)
    by (apply (dict_of_rows_from [] by_district_rows); exact Hnd).
  unfold api_get_stats in H. rewrite Hd in H.
  destruct (3 <=? List.length stations_rows)%nat.
  - destruct (simple_kmeans rng seed sample g _ 3 100) as [[l|] g2];
      cbn [bind] in H; [|discriminate].
    destruct (collect _) as [pts|]; cbn [bind] in H; [|discriminate].
    injection H as <- _. reflexivity.
  - injection H as <- _. reflexivity.
Qed.

End StatsProperties.

(** * Further properties of the date parser *)

Lemma make_date_valid (y m d : Z) (dt : date) :
  make_date y m d = Ok dt ->
  dt = mkdate y m d /\ 1 <= y <= 9999 /\ 1 <= m <= 12 /\
  1 <= d <= days_in_month y m.
Proof.
  unfold make_date.
  destruct ((1 <=? y) && (y <=? 9999) && (1 <=? m) && (m <=? 12)
            && (1 <=? d) && (d <=? days_in_month y m)) eqn:E; [|discriminate].
  intros H. injection H as <-.
  repeat (apply andb_true_iff in E; destruct E as [E ?]).
  repeat match goal with
         | H : (_ <=? _) = true |- _ => apply Z.leb_le in H
         end.
  repeat split; assumption.
Qed.

Lemma strptime_valid (v : pyval) (f : list directive) (dt : date) :
  strptime v f = Ok dt ->
  1 <= year dt <= 9999 /\ 1 <= month dt <= 12 /\
  1 <= day dt <= days_in_month (year dt) (month dt).
Proof.
  unfold strptime. destruct v as [| | | | s | |]; try discriminate.
  destruct (re_match (pattern f) s) as [[rest caps]|]; [|discriminate].
  destruct (negb (rest =? "")%string); [discriminate|].
  intros H. apply make_date_valid in H. destruct H as (-> & H). exact H.
Qed.

(** X12. [safe_parse_date] only ever returns a date of the calendar: a year
    from 1 to 9999, a month from 1 to 12 and a day that the month has in
    that year. *)
Theorem safe_parse_date_calendar (date_str : pyval) (dt : date) :
  safe_parse_date date_str = Ok (Some dt) ->
  1 <= year dt <= 9999 /\ 1 <= month dt <= 12 /\
  1 <= day dt <= days_in_month (year dt) (month dt).
Proof.
  unfold safe_parse_date, safe_parse_date_with.
  destruct (negb (truthy date_str)); [discriminate|].
  cbn [try_formats].
  destruct (strptime date_str fmt_dmy) as [d1|] eqn:E1.
  - intros H. injection H as <-. eapply strptime_valid. exact E1.
  - destruct (strptime date_str fmt_ymd) as [d2|] eqn:E2; [|discriminate].
    intros H. injection H as <-. eapply strptime_valid. exact E2.
Qed.

(** The day.month.year pattern needs a point as second or third character. *)
Lemma dmy_needs_point (c0 c1 c2 : ascii) (r : string) :
  digit c1 = true -> digit c2 = true ->
  re_match (pattern fmt_dmy) (String c0 (String c1 (String c2 r))) = None.
Proof.
  intros H1 H2. unfold re_match.
  cbn [pattern fmt_dmy directive_re re_d rmatch chr].
  rewrite (digit_not_dot c1 H1), (digit_not_dot c2 H2).
  repeat match goal with
         | |- context [if ?b then _ else _] => destruct b
         end; reflexivity.
Qed.

(** The year-month-day pattern needs four digits at the head. *)
Lemma ymd_needs_digits (s : string) :
  re_match (pattern fmt_ymd) s <> None ->
  exists c0 c1 c2 c3 r,
    s = String c0 (String c1 (String c2 (String c3 r))) /\
    digit c1 = true /\ digit c2 = true.
Proof.
  unfold re_match. cbn [pattern fmt_ymd directive_re re_Y rmatch].
  destruct s as [|c0 [|c1 [|c2 [|c3 r]]]];
    try (destruct (digit c0); intros H; now contradiction H);
    try (intros H; now contradiction H).
  - destruct (digit c0); [|intros H; now contradiction H].
    destruct (digit c1); intros H; now contradiction H.
  - destruct (digit c0); [|intros H; now contradiction H].
    destruct (digit c1); [|intros H; now contradiction H].
    destruct (digit c2); intros H; now contradiction H.
  - destruct (digit c0); [|intros H; now contradiction H].
    destruct (digit c1) eqn:E1; [|intros H; now contradiction H].
    destruct (digit c2) eqn:E2; [|intros H; now contradiction H].
    intros _. exists c0, c1, c2, c3, r. repeat split; assumption.
Qed.

Lemma strptime_text_error (s : string) (f : list directive) (e : exn) :
  strptime (PStr s) f = Raise e -> e = ValueError.
Proof.
  unfold strptime, make_date.
  destruct (re_match (pattern f) s) as [[rest caps]|]; [|congruence].
  destruct (negb (rest =? "")%string); [congruence|].
  match goal with
  | |- context [if ?b then _ else _] => destruct b
  end; congruence.
Qed.

(** X13. No text is a date in both formats: where day.month.year parses,
    year-month-day raises, and the other way round, so the order in which
    [safe_parse_date] tries the two never decides its result. *)
Theorem date_formats_exclusive (s : string) :
  (forall d, strptime (PStr s) fmt_dmy = Ok d ->
             strptime (PStr s) fmt_ymd = Raise ValueError) /\
  (forall d, strptime (PStr s) fmt_ymd = Ok d ->
             strptime (PStr s) fmt_dmy = Raise ValueError).
Proof.
  assert (Hboth : forall d1 d2,
            strptime (PStr s) fmt_dmy = Ok d1 ->
            strptime (PStr s) fmt_ymd = Ok d2 -> False).
  { unfold strptime. intros d1 d2 H1 H2.
    destruct (re_match (pattern fmt_ymd) s) as [x|] eqn:Ey; [|discriminate].
    destruct (ymd_needs_digits s) as (c0 & c1 & c2 & c3 & r & -> & Hc1 & Hc2).
    { rewrite Ey. discriminate. }
    rewrite (dmy_needs_point c0 c1 c2 (String c3 r) Hc1 Hc2) in H1.
    discriminate H1. }
  split; intros d H.
  - destruct (strptime (PStr s) fmt_ymd) as [d2|e] eqn:E.
    + exfalso. apply (Hboth d d2 H eq_refl).
    + now rewrite (strptime_text_error s fmt_ymd e E).
  - destruct (strptime (PStr s) fmt_dmy) as [d1|e] eqn:E.
    + exfalso. apply (Hboth d1 d eq_refl H).
    + now rewrite (strptime_text_error s fmt_dmy e E).
Qed.

(** ** Reading back [isoformat] *)

Lemma digit_char_facts (n : Z) :
  0 <= n <= 9 ->
  digit (digit_char n) = true /\
  Ascii.eqb (digit_char n) " " = false /\
  digit_val (digit_char n) = n.
Proof.
  intros H. rewrite <- (Z2Nat.id n) by lia.
  assert (Hk : (Z.to_nat n <= 9)%nat) by lia.
  revert Hk. generalize (Z.to_nat n) as k. intros k Hk.
  do 10 (destruct k as [|k]; [repeat split; reflexivity|]).
  lia.
Qed.

Lemma int_of_pad2 (n : Z) : 0 <= n <= 99 -> int_of (pad2 n) = n.
Proof.
  intros H. unfold pad2.
  assert (H0 : 0 <= n / 10 <= 9) by (Z.div_mod_to_equations; lia).
  assert (H1 : 0 <= n mod 10 <= 9) by (Z.div_mod_to_equations; lia).
  destruct (digit_char_facts _ H0) as (_ & Hs0 & Hv0).
  destruct (digit_char_facts _ H1) as (_ & _ & Hv1).
  cbn [int_of]. rewrite Hs0. cbn [dec_value]. rewrite Hv0, Hv1.
  Z.div_mod_to_equations; lia.
Qed.

Lemma int_of_pad4 (n : Z) : 0 <= n <= 9999 -> int_of (pad4 n) = n.
Proof.
  intros H. unfold pad4.
  assert (H0 : 0 <= n / 1000 <= 9) by (Z.div_mod_to_equations; lia).
  assert (H1 : 0 <= n / 100 mod 10 <= 9) by (Z.div_mod_to_equations; lia).
  assert (H2 : 0 <= n / 10 mod 10 <= 9) by (Z.div_mod_to_equations; lia).
  assert (H3 : 0 <= n mod 10 <= 9) by (Z.div_mod_to_equations; lia).
  destruct (digit_char_facts _ H0) as (_ & Hs0 & Hv0).
  destruct (digit_char_facts _ H1) as (_ & _ & Hv1).
  destruct (digit_char_facts _ H2) as (_ & _ & Hv2).
  destruct (digit_char_facts _ H3) as (_ & _ & Hv3).
  cbn [int_of]. rewrite Hs0. cbn [dec_value]. rewrite Hv0, Hv1, Hv2, Hv3.
  Z.div_mod_to_equations; lia.
Qed.

Lemma year_group_match (c0 c1 c2 c3 : ascii) (r : string) (caps : captures)
  (k : cont) :
  digit c0 = true -> digit c1 = true -> digit c2 = true -> digit c3 = true ->
  rmatch re_Y (String c0 (String c1 (String c2 (String c3 r)))) caps k
  = k r (("Y", String c0 (String c1 (String c2 (String c3 EmptyString))))
           :: caps).
Proof.
  intros H0 H1 H2 H3. unfold re_Y. cbn [rmatch]. rewrite H0, H1, H2, H3.
  change (String c0 (String c1 (String c2 (String c3 r))))
    with (String c0 (String c1 (String c2 (String c3 EmptyString))) ++ r)%string.
  now rewrite consumed_app.
Qed.

Lemma month_day_cases (m d : Z) :
  1 <= m <= 12 -> 1 <= d <= 31 ->
  (m = 1 \/ m = 2 \/ m = 3 \/ m = 4 \/ m = 5 \/ m = 6 \/ m = 7 \/ m = 8 \/
   m = 9 \/ m = 10 \/ m = 11 \/ m = 12) /\
  (d = 1 \/ d = 2 \/ d = 3 \/ d = 4 \/ d = 5 \/ d = 6 \/ d = 7 \/ d = 8 \/
   d = 9 \/ d = 10 \/ d = 11 \/ d = 12 \/ d = 13 \/ d = 14 \/ d = 15 \/
   d = 16 \/ d = 17 \/ d = 18 \/ d = 19 \/ d = 20 \/ d = 21 \/ d = 22 \/
   d = 23 \/ d = 24 \/ d = 25 \/ d = 26 \/ d = 27 \/ d = 28 \/ d = 29 \/
   d = 30 \/ d = 31).
Proof. lia. Qed.

(** The month and day part of the year-month-day pattern on [-MM-DD]. *)
Lemma month_day_match (m d : Z) (y4 : string) :
  1 <= m <= 12 -> 1 <= d <= 31 ->
  rmatch (pattern [Lit "-"; D_m; Lit "-"; D_d])
         (String "-" (pad2 m ++ String "-" (pad2 d))) [("Y", y4)]
         (fun s' c' => Some (s', c'))
  = Some (EmptyString, [("d", pad2 d); ("m", pad2 m); ("Y", y4)]).
Proof.
  intros Hm Hd. destruct (month_day_cases m d Hm Hd) as [Cm Cd].
  repeat (destruct Cm as [-> | Cm]); try subst m;
    repeat (destruct Cd as [-> | Cd]); try subst d;
    vm_compute; reflexivity.
Qed.

Lemma make_date_ok (y m d : Z) :
  1 <= y <= 9999 -> 1 <= m <= 12 -> 1 <= d <= days_in_month y m ->
  make_date y m d = Ok (mkdate y m d).
Proof.
  intros Hy Hm Hd. unfold make_date.
  replace (1 <=? y) with true by (symmetry; apply Z.leb_le; lia).
  replace (y <=? 9999) with true by (symmetry; apply Z.leb_le; lia).
  replace (1 <=? m) with true by (symmetry; apply Z.leb_le; lia).
  replace (m <=? 12) with true by (symmetry; apply Z.leb_le; lia).
  replace (1 <=? d) with true by (symmetry; apply Z.leb_le; lia).
  replace (d <=? days_in_month y m) with true by (symmetry; apply Z.leb_le; lia).
  reflexivity.
Qed.

Lemma days_in_month_le_31 (y m : Z) : days_in_month y m <= 31.
Proof.
  unfold days_in_month.
  destruct (m =? 2); [destruct (is_leap y); lia|].
  destruct ((m =? 4) || (m =? 6) || (m =? 9) || (m =? 11)); lia.
Qed.

(** X14. Round trip with the output side: the text [isoformat] renders for
    a date of the calendar (as [api_get_stations] does for [test_date]) is
    read back by [safe_parse_date] as that same date. *)
Theorem isoformat_round_trip (dt : date) :
  1 <= year dt <= 9999 -> 1 <= month dt <= 12 ->
  1 <= day dt <= days_in_month (year dt) (month dt) ->
  safe_parse_date (PStr (isoformat dt)) = Ok (Some dt).
Proof.
  destruct dt as [y m d]. cbn [year month day]. intros Hy Hm Hd.
  pose proof (days_in_month_le_31 y m) as H31.
  assert (H0 : 0 <= y / 1000 <= 9) by (Z.div_mod_to_equations; lia).
  assert (H1 : 0 <= y / 100 mod 10 <= 9) by (Z.div_mod_to_equations; lia).
  assert (H2 : 0 <= y / 10 mod 10 <= 9) by (Z.div_mod_to_equations; lia).
  assert (H3 : 0 <= y mod 10 <= 9) by (Z.div_mod_to_equations; lia).
  destruct (digit_char_facts _ H0) as (D0 & _ & _).
  destruct (digit_char_facts _ H1) as (D1 & _ & _).
  destruct (digit_char_facts _ H2) as (D2 & _ & _).
  destruct (digit_char_facts _ H3) as (D3 & _ & _).
  assert (Hiso : isoformat (mkdate y m d)
                 = String (digit_char (y / 1000))
                     (String (digit_char (y / 100 mod 10))
                        (String (digit_char (y / 10 mod 10))
                           (String (digit_char (y mod 10))
                              (String "-" (pad2 m ++ String "-" (pad2 d)))))))
    by reflexivity.
  assert (Hdmy : strptime (PStr (isoformat (mkdate y m d))) fmt_dmy
                 = Raise ValueError).
  { unfold strptime. rewrite Hiso.
    now rewrite (dmy_needs_point _ _ _ _ D1 D2). }
  assert (Hymd : strptime (PStr (isoformat (mkdate y m d))) fmt_ymd
                 = Ok (mkdate y m d)).
  { unfold strptime, re_match. rewrite Hiso.
    change (pattern fmt_ymd)
      with (Seq re_Y (pattern [Lit "-"; D_m; Lit "-"; D_d])).
    cbn [rmatch]. rewrite (year_group_match _ _ _ _ _ _ _ D0 D1 D2 D3).
    rewrite (month_day_match m d _ Hm); [|lia].
    cbn [negb String.eqb]. unfold group_or. cbn [capture String.eqb Ascii.eqb Bool.eqb].
    fold (pad4 y).
    rewrite (int_of_pad4 y), (int_of_pad2 m), (int_of_pad2 d) by lia.
    apply make_date_ok; assumption. }
  unfold safe_parse_date, safe_parse_date_with.
  rewrite Hiso at 1. cbn [truthy String.eqb negb].
  cbn [try_formats]. rewrite Hdmy, Hymd. reflexivity.
Qed.

(** * Further properties of the coordinate reader *)

Lemma all_of_app (p : ascii -> bool) (a b : string) :
  all_of p (a ++ b) = all_of p a && all_of p b.
Proof.
  induction a as [|c a IH]; simpl; [reflexivity|].
  rewrite IH. now rewrite andb_assoc.
Qed.

Lemma sign_cases (c : ascii) :
  sign c = true -> c = "-"%char \/ c = "+"%char.
Proof.
  unfold sign. intros H. apply orb_true_iff in H.
  destruct H as [H | H]; apply Ascii.eqb_eq in H; auto.
Qed.

(** What [num_at] reads is an unsigned run of digits, or digits (possibly
    none) followed by a point and at least one digit, with or without a sign
    in front. *)
Lemma num_at_shape (s m rest : string) :
  num_at s = Some (m, rest) ->
  (all_of digit m = true /\ (m =? "")%string = false) \/
  (exists sg ip fp,
      m = (sg ++ ip ++ String "." fp)%string /\
      (sg = EmptyString \/ sg = "+"%string \/ sg = "-"%string) /\
      all_of digit ip = true /\ all_of digit fp = true /\
      (fp =? "")%string = false).
Proof.
  destruct s as [|c r]; [discriminate|]. cbn [num_at].
  destruct (sign c) eqn:Hs.
  - pose proof (span_all digit r) as Hall.
    destruct (span digit r) as [ip r1]. cbn [fst] in Hall.
    destruct r1 as [|c1 r2]; [discriminate|].
    pose proof (span_all digit r2) as Hall2.
    destruct (span digit r2) as [fp r3]. cbn [fst] in Hall2.
    destruct (Ascii.eqb "." c1) eqn:Hd; [|discriminate].
    destruct (fp =? "")%string eqn:Hne; [discriminate|].
    cbn [andb negb]. intros H. injection H as <- <-.
    apply Ascii.eqb_eq in Hd. subst c1.
    right. exists (String c EmptyString), ip, fp.
    split; [reflexivity|]. split.
    + destruct (sign_cases c Hs) as [-> | ->]; auto.
    + repeat split; assumption.
  - pose proof (span_all digit (String c r)) as Hall.
    destruct (span digit (String c r)) as [ip r1]. cbn [fst] in Hall.
    assert (Hwhole : forall m0 rest0,
              (if negb (ip =? "")%string then Some (ip, r1) else None)
              = Some (m0, rest0) ->
              all_of digit m0 = true /\ (m0 =? "")%string = false).
    { intros m0 rest0 H. destruct (ip =? "")%string eqn:Hne; [discriminate|].
      injection H as <- <-. split; assumption. }
    destruct r1 as [|c1 r2]; [intros H; left; eapply Hwhole; exact H|].
    pose proof (span_all digit r2) as Hall2.
    destruct (span digit r2) as [fp r3]. cbn [fst] in Hall2.
    destruct (Ascii.eqb "." c1) eqn:Hd;
      [|intros H; left; eapply Hwhole; exact H].
    destruct (fp =? "")%string eqn:Hne;
      [intros H; left; eapply Hwhole; exact H|].
    cbn [andb negb]. intros H. injection H as <- <-.
    apply Ascii.eqb_eq in Hd. subst c1.
    right. exists EmptyString, ip, fp. repeat split; auto.
Qed.

(** Every text of [findall] was read by [num_at] at some position. *)
Lemma findall_NUM_read (s : string) (skip : nat) (m : string) :
  In m (findall_from NUM skip s) ->
  exists pre rest,
    s = (pre ++ m ++ rest)%string /\ num_at (m ++ rest) = Some (m, rest).
Proof.
  revert skip. induction s as [|c s IH]; intros skip Hin; [destruct Hin|].
  assert (Hlater : forall n, In m (findall_from NUM n s) ->
            exists pre rest,
              String c s = (pre ++ m ++ rest)%string /\
              num_at (m ++ rest) = Some (m, rest)).
  { intros n H. destruct (IH n H) as (pre & rest & -> & Hn).
    exists (String c pre), rest. split; [reflexivity | exact Hn]. }
  cbn [findall_from] in Hin. destruct skip as [|n]; [|eapply Hlater; exact Hin].
  rewrite re_match_NUM in Hin.
  destruct (num_at (String c s)) as [[m0 rest0]|] eqn:E;
    [|eapply Hlater; exact Hin].
  destruct (num_at_sound _ _ _ E) as (Hs & _ & _).
  rewrite Hs, consumed_app in Hin. destruct Hin as [<- | Hin].
  - exists EmptyString, rest0. split; [exact Hs|]. rewrite <- Hs. exact E.
  - eapply Hlater. exact Hin.
Qed.

(** X15. Every number [extract_coordinates] finds in an ASCII text is a
    piece of that text and is either an unsigned run of digits or digits
    (possibly none), a point and at least one digit, with an optional sign
    in front: a sign is read only before a number with a fractional part. *)
Theorem findall_NUM_shape (s m : string) :
  is_ascii s = true ->
  In m (findall NUM s) ->
  (exists pre rest, s = (pre ++ m ++ rest)%string) /\
  ((all_of digit m = true /\ (m =? "")%string = false) \/
   (exists sg ip fp,
       m = (sg ++ ip ++ String "." fp)%string /\
       (sg = EmptyString \/ sg = "+"%string \/ sg = "-"%string) /\
       all_of digit ip = true /\ all_of digit fp = true /\
       (fp =? "")%string = false)).
Proof.
  intros _ Hin.
  destruct (findall_NUM_read s 0 m Hin) as (pre & rest & Hs & Hn).
  split.
  - exists pre, rest. exact Hs.
  - eapply num_at_shape. exact Hn.
Qed.

Lemma all_of_has_digit (m : string) :
  all_of (fun c => negb (digit c)) m = true ->
  all_of digit m = true -> (m =? "")%string = true.
Proof.
  destruct m as [|c m]; [reflexivity|]. simpl.
  destruct (digit c); simpl; discriminate.
Qed.

(** X16. An ASCII text without any digit holds no number:
    [extract_coordinates] returns [(None, None)] for it. *)
Theorem extract_coordinates_without_digits (s : string) :
  is_ascii s = true ->
  all_of (fun c => negb (digit c)) s = true ->
  findall NUM s = [] /\ extract_coordinates (PStr s) = Ok (PNone, PNone).
Proof.
  intros _ Hno.
  assert (Hnil : findall NUM s = []).
  { destruct (findall NUM s) as [|m l] eqn:E; [reflexivity|]. exfalso.
    assert (Hin : In m (findall NUM s)) by (rewrite E; left; reflexivity).
    destruct (findall_NUM_read s 0 m Hin) as (pre & rest & Hs & Hn).
    rewrite Hs, !all_of_app in Hno.
    apply andb_true_iff in Hno. destruct Hno as [_ Hno].
    apply andb_true_iff in Hno. destruct Hno as [Hm _].
    destruct (num_at_shape _ _ _ Hn) as [[Hd Hne] | (sg & ip & fp & -> & _ & _ & Hfp & Hne)].
    - rewrite (all_of_has_digit m Hm Hd) in Hne. discriminate.
    - rewrite !all_of_app in Hm.
      apply andb_true_iff in Hm. destruct Hm as [_ Hm].
      apply andb_true_iff in Hm. destruct Hm as [_ Hm].
      simpl in Hm.
      rewrite (all_of_has_digit fp Hm Hfp) in Hne. discriminate. }
  split; [exact Hnil|].
  unfold extract_coordinates. destruct (negb (truthy (PStr s))); [reflexivity|].
  rewrite Hnil. reflexivity.
Qed.

(** * Malformed payloads and inserted rows *)

Lemma run_ops_new_rows (now : timestamp) (ops : list op) (st : db * counters)
  (i : nat) (r : Station) :
  (List.length (stations (fst st)) <= i)%nat ->
  nth_error (stations (fst (run_ops now ops st))) i = Some r ->
  created_at r = now /\ updated_at r = now.
Proof.
  revert i r. induction ops as [|o ops IH] using rev_ind; intros i r Hi Hn.
  - cbn in Hn. apply nth_error_None in Hi. congruence.
  - rewrite run_ops_app in Hn. cbn [run_ops fold_left] in Hn.
    unfold step in Hn at 1. cbn [fst] in Hn.
    fold (run_ops now ops st) in Hn.
    set (mid := fst (run_ops now ops st)) in *.
    unfold upsert in Hn.
    destruct (select_exists (stations mid) (fst o)); cbn [stations] in Hn.
    + rewrite nth_error_map in Hn.
      destruct (nth_error (stations mid) i) as [r0|] eqn:E; [|discriminate].
      injection Hn as <-. destruct (IH i r0 Hi E) as [Hc Hu].
      destruct (has_key (fst o) r0); cbn; auto.
    + destruct (Nat.lt_ge_cases i (List.length (stations mid))) as [Hlt | Hge].
      * rewrite nth_error_app1 in Hn by exact Hlt. apply (IH i r Hi Hn).
      * rewrite nth_error_app2 in Hn by exact Hge.
        destruct (i - List.length (stations mid))%nat as [|n].
        -- injection Hn as <-. split; reflexivity.
        -- destruct n; discriminate Hn.
Qed.

Section Payloads.

Variable accepts : Params -> bool.

(** X17. A row that the run added to the store (one beyond the rows that
    were there) bears the run's time both as creation and as update
    timestamp. *)
Theorem import_stamps_new_rows (now : timestamp) (fetch : feed -> fetched)
  (d : db) (i : nat) (r : Station) :
  (List.length (stations d) <= i)%nat ->
  nth_error (stations (fst (import_data accepts now fetch d))) i = Some r ->
  created_at r = now /\ updated_at r = now.
Proof.
  intros Hi. rewrite import_data_plan.
  destruct (plan accepts fetch URLS) as [pl|e]; cbn [fst].
  - rewrite (run_plan_db now pl d _ (mkcounters 0 0)).
    apply (run_ops_new_rows now (all_ops pl) (d, mkcounters 0 0) i r Hi).
  - cbn [stations]. intros Hn. apply nth_error_None in Hi. congruence.
Qed.

(** X18. A payload of the eco feed that is not a list of objects aborts the
    whole run and leaves the store as it was: a JSON object or a text that
    is not empty raises [AttributeError] at its first element, and [null], a
    boolean or a number raises [TypeError]. An empty object, list or text
    holds no item and lets the run go on. *)
Theorem import_rejects_malformed_payload (now : timestamp)
  (fetch : feed -> fetched) (d : db) (data : pyval) :
  fetch Eco = Fetched data ->
  (forall kv rest, data = PDict (kv :: rest) ->
     import_data accepts now fetch d = (d, Raise AttributeError)) /\
  (forall c rest, data = PStr (String c rest) ->
     import_data accepts now fetch d = (d, Raise AttributeError)) /\
  (forall v rest, data = PList (v :: rest) ->
     (forall fields, v <> PDict fields) ->
     import_data accepts now fetch d = (d, Raise AttributeError)) /\
  (data = PNone \/ (exists b, data = PBool b) \/ (exists n, data = PInt n) \/
   (exists x, data = PFloat x) ->
   import_data accepts now fetch d = (d, Raise TypeError)) /\
  (data = PDict [] \/ data = PList [] \/ data = PStr "" ->
   import_data accepts now fetch d
   = transaction d (fun conn =>
       process_feeds accepts now fetch [NonEco]
         (conn, mkreport [(Eco, mkcounters 0 0)] (mkcounters 0 0)))).
Proof.
  intros Hf. destruct d as [rows seq].
  unfold import_data, transaction, URLS.
  cbn [process_feeds]. rewrite Hf. unfold process_batch.
  split; [|split; [|split; [|split]]].
  - intros kv rest ->. reflexivity.
  - intros c rest ->. reflexivity.
  - intros v rest -> Hv. cbn [iterate process_items].
    unfold process_item, normalize.
    destruct v; try reflexivity. exfalso. eapply Hv. reflexivity.
  - intros [-> | [[b ->] | [[n ->] | [x ->]]]]; reflexivity.
  - intros [-> | [-> | ->]]; reflexivity.
Qed.

End Payloads.

(** * The further properties on the samples *)

Lemma kmeans_labels_shape_witness :
  List.length [0; 1; 2; 0; 1; 2]%nat = List.length six_points /\
  Forall (fun l => (Z.of_nat l < 3)%Z) [0; 1; 2; 0; 1; 2]%nat.
Proof.
  apply (kmeans_labels_shape nat counter_seed rotating_sample 7%nat six_points
           3 100 [0; 1; 2; 0; 1; 2]%nat rotating_sample_contract).
  vm_compute. reflexivity.
Defined.

Lemma kmeans_returns_on_valid_input_witness :
  exists labels,
    fst (simple_kmeans nat counter_seed rotating_sample 7%nat six_points 3 100)
    = Ok labels.
Proof.
  apply (kmeans_returns_on_valid_input nat counter_seed rotating_sample 7%nat
           six_points 3 100 rotating_sample_contract).
  - simpl. lia.
  - lia.
Defined.

Lemma kmeans_without_iterations_raises_witness :
  fst (simple_kmeans nat counter_seed rotating_sample 7%nat six_points 3 0)
  = Raise UnboundLocalError.
Proof.
  apply (kmeans_without_iterations_raises nat counter_seed rotating_sample
           7%nat six_points 3 0 rotating_sample_contract).
  - simpl. lia.
  - lia.
Defined.

Lemma recompute_keeps_empty_clusters_witness :
  nth_error (recompute 0 [(0, 0); (50, 50)]%float [(1, 1); (3, 3)]%float
               [0; 0]%nat) 1
  = Some (50, 50)%float /\
  nth_error (recompute 0 [(0, 0); (50, 50)]%float [(1, 1); (3, 3)]%float
               [0; 0]%nat) 0
  = Some (2, 2)%float.
Proof.
  split.
  - destruct (recompute_keeps_empty_clusters [(0, 0); (50, 50)]%float
                [(1, 1); (3, 3)]%float [0; 0]%nat 1 (50, 50)%float)
      as (_ & H & _).
    + reflexivity.
    + apply H. simpl. intros [H0 | [H0 | []]]; discriminate H0.
  - destruct (recompute_keeps_empty_clusters [(0, 0); (50, 50)]%float
                [(1, 1); (3, 3)]%float [0; 0]%nat 0 (0, 0)%float)
      as (_ & _ & H).
    + reflexivity.
    + rewrite H; [vm_compute; reflexivity | discriminate].
Defined.

Lemma api_get_stats_scatter_witness :
  exists out g',
    api_get_stats nat counter_seed rotating_sample 7%nat area_rows two_rows
    = (Ok out, g') /\
    cs_k (clusters_scatter out) = 1 /\
    List.length (cs_points (clusters_scatter out)) = 2%nat.
Proof.
  destruct (api_get_stats_scatter nat counter_seed rotating_sample 7%nat
              area_rows two_rows rotating_sample_contract)
    as (out & g' & H & Hk & Hl & _).
  exists out, g'. split; [exact H|]. split; [exact Hk | exact Hl].
Defined.

Lemma api_get_stats_by_district_witness :
  by_district
    (mkstats area_rows
       (mkclusters 1 [mkpoint 55.7%float 37.6%float 1 0;
                     mkpoint 55.8%float 37.5%float 0 0]))
  = area_rows.
Proof.
  apply (api_get_stats_by_district nat counter_seed rotating_sample 7%nat
           area_rows two_rows _ 7%nat).
  - simpl. repeat constructor; simpl; intuition discriminate.
  - vm_compute. reflexivity.
Defined.

Lemma safe_parse_date_calendar_witness :
  1 <= 2024 <= 9999 /\ 1 <= 2 <= 12 /\ 1 <= 29 <= days_in_month 2024 2.
Proof.
  apply (safe_parse_date_calendar (PStr "29.02.2024") (mkdate 2024 2 29)).
  vm_compute. reflexivity.
Defined.

Lemma date_formats_exclusive_witness :
  strptime (PStr "01.02.2023") fmt_ymd = Raise ValueError /\
  strptime (PStr "2023-02-01") fmt_dmy = Raise ValueError.
Proof.
  split.
  - destruct (date_formats_exclusive "01.02.2023") as [H _].
    apply (H (mkdate 2023 2 1)). vm_compute. reflexivity.
  - destruct (date_formats_exclusive "2023-02-01") as [_ H].
    apply (H (mkdate 2023 2 1)). vm_compute. reflexivity.
Defined.

Lemma isoformat_round_trip_witness :
  safe_parse_date (PStr (isoformat (mkdate 2024 2 29)))
  = Ok (Some (mkdate 2024 2 29)).
Proof.
  apply (isoformat_round_trip (mkdate 2024 2 29)).
  - simpl. lia.
  - simpl. lia.
  - vm_compute. split; discriminate.
Defined.

Lemma findall_NUM_shape_witness :
  exists pre rest, "POINT(-37.5 55)"%string = (pre ++ "-37.5" ++ rest)%string.
Proof.
  destruct (findall_NUM_shape "POINT(-37.5 55)" "-37.5") as [H _].
  - reflexivity.
  - vm_compute. left. reflexivity.
  - exact H.
Defined.

Lemma extract_coordinates_without_digits_witness :
  extract_coordinates (PStr "no coordinates known") = Ok (PNone, PNone).
Proof.
  apply (extract_coordinates_without_digits "no coordinates known").
  - reflexivity.
  - reflexivity.
Defined.

Lemma import_stamps_new_rows_witness :
  created_at
    (new_row 200 2 ("AZS 2", "Mira 5")%string mira_record) = 200 /\
  updated_at
    (new_row 200 2 ("AZS 2", "Mira 5")%string mira_record) = 200.
Proof.
  apply (import_stamps_new_rows accept_all 200 fetch_mira_only lenina_db 1).
  - simpl. lia.
  - vm_compute. reflexivity.
Defined.

Lemma import_rejects_malformed_payload_witness :
  import_data accept_all 200 fetch_error_object lenina_db
  = (lenina_db, Raise AttributeError).
Proof.
  destruct (import_rejects_malformed_payload accept_all 200 fetch_error_object
              lenina_db (PDict [("error", PStr "quota exceeded")]))
    as (H & _).
  - reflexivity.
  - apply (H ("error", PStr "quota exceeded") []). reflexivity.
Defined.

(** * Composition of upserts and the per-feed report *)

Lemma has_key_false_in (rows : list Station) (k : key) (r : Station) :
  select_exists rows k = false -> In r rows -> has_key k r = false.
Proof.
  unfold select_exists. intros H Hin.
  destruct (has_key k r) eqn:E; [|reflexivity].
  rewrite <- not_true_iff_false, existsb_exists in H.
  exfalso. apply H. exists r. split; assumption.
Qed.

(** X19. Executing the same upsert a second time at the same transaction
    time changes no row: the statement is idempotent on the rows of the
    store. *)
Theorem upsert_idempotent (now : timestamp) (k : key) (p : Params) (d : db) :
  stations (upsert now k p (upsert now k p d)) = stations (upsert now k p d).
Proof.
  unfold upsert at 2 3.
  destruct (select_exists (stations d) k) eqn:E.
  - unfold upsert. cbn [stations next_id].
    rewrite select_exists_map
      by (intros r; destruct (has_key k r); reflexivity).
    rewrite E, map_map. cbn [stations]. apply map_ext. intros r.
    destruct (has_key k r) eqn:Ek; [|now rewrite Ek].
    rewrite has_key_do_update, Ek. reflexivity.
  - unfold upsert. cbn [stations next_id].
    rewrite select_exists_app, E. cbn [select_exists existsb orb].
    unfold has_key at 1. rewrite new_row_key, key_eqb_refl. cbn [orb stations].
    rewrite map_app. cbn [map]. f_equal.
    + rewrite <- (map_id (stations d)) at 2. apply map_ext_in.
      intros r Hr. now rewrite (has_key_false_in _ _ _ E Hr).
    + unfold has_key. rewrite new_row_key, key_eqb_refl. reflexivity.
Qed.

Lemma sum_added_snoc (l : list (feed * counters)) (fc : feed * counters) :
  sum_added (l ++ [fc]) = sum_added l + added (snd fc).
Proof.
  unfold sum_added. induction l as [|x l IH]; cbn [app fold_right]; lia.
Qed.

Lemma sum_updated_snoc (l : list (feed * counters)) (fc : feed * counters) :
  sum_updated (l ++ [fc]) = sum_updated l + updated (snd fc).
Proof.
  unfold sum_updated. induction l as [|x l IH]; cbn [app fold_right]; lia.
Qed.

Lemma run_plan_report (now : timestamp) (pl : list (feed * list op)) (d : db)
  (rep : report) :
  map fst (per_feed (snd (run_plan now pl (d, rep))))
  = (map fst (per_feed rep) ++ map fst pl)%list /\
  added (totals (snd (run_plan now pl (d, rep))))
  - sum_added (per_feed (snd (run_plan now pl (d, rep))))
  = added (totals rep) - sum_added (per_feed rep) /\
  updated (totals (snd (run_plan now pl (d, rep))))
  - sum_updated (per_feed (snd (run_plan now pl (d, rep))))
  = updated (totals rep) - sum_updated (per_feed rep).
Proof.
  revert d rep. induction pl as [|[f ops] pl IH]; intros d rep.
  - cbn [run_plan snd map]. rewrite app_nil_r. repeat split; reflexivity.
  - cbn [run_plan fst snd].
    destruct (run_ops now ops (d, mkcounters 0 0)) as [conn' c].
    match goal with
    | |- context [run_plan now pl (?d1, ?rep1)] =>
        destruct (IH d1 rep1) as (H1 & H2 & H3);
        set (out := run_plan now pl (d1, rep1)) in *
    end.
    cbn [per_feed totals added updated] in *.
    rewrite sum_added_snoc in H2. rewrite sum_updated_snoc in H3.
    cbn [snd] in *. split; [|split; lia].
    rewrite H1, map_app, <- app_assoc. reflexivity.
Qed.

Lemma plan_feeds (accepts : Params -> bool) (fetch : feed -> fetched)
  (feeds : list feed) (pl : list (feed * list op)) :
  plan accepts fetch feeds = Ok pl ->
  map fst pl = filter (loaded fetch) feeds.
Proof.
  revert pl. induction feeds as [|f feeds IH]; intros pl H.
  - injection H as <-. reflexivity.
  - cbn [plan filter] in *. unfold loaded at 1.
    destruct (fetch f) as [data|]; [|apply IH; exact H].
    destruct (iterate data) as [items|]; [|discriminate].
    cbn [bind] in H.
    destruct (plan_items accepts f items) as [ops|]; [|discriminate].
    cbn [bind] in H.
    destruct (plan accepts fetch feeds) as [rest|]; [|discriminate].
    cbn [bind] in H. injection H as <-. cbn [map fst].
    f_equal. apply IH. reflexivity.
Qed.

Section PerFeedReport.

Variable accepts : Params -> bool.

(** X20. The report of a run that commits has one pair of counters for
    every feed that loaded, eco before non-eco, and none for a feed whose
    fetch failed; the totals are the sums of these counters. *)
Theorem import_reports_per_feed (now : timestamp) (fetch : feed -> fetched)
  (d d' : db) (rep : report) :
  import_data accepts now fetch d = (d', Ok rep) ->
  map fst (per_feed rep) = filter (loaded fetch) URLS /\
  added (totals rep) = sum_added (per_feed rep) /\
  updated (totals rep) = sum_updated (per_feed rep).
Proof.
  intros H. rewrite import_data_plan in H.
  destruct (plan accepts fetch URLS) as [pl|e] eqn:Hpl; [|discriminate].
  set (rep0 := mkreport [] (mkcounters 0 0)) in *.
  assert (Hr : snd (run_plan now pl (d, rep0)) = rep) by congruence.
  destruct (run_plan_report now pl d rep0) as (H1 & H2 & H3).
  rewrite Hr in *. cbn [rep0 per_feed totals added updated map app] in *.
  change (sum_added []) with 0 in H2. change (sum_updated []) with 0 in H3.
  split; [|split].
  - rewrite H1. apply (plan_feeds accepts fetch URLS pl Hpl).
  - lia.
  - lia.
Qed.

End PerFeedReport.

Lemma import_reports_per_feed_witness :
  map fst [(NonEco, mkcounters 1 0)] = filter (loaded fetch_mira_only) URLS /\
  1 = sum_added [(NonEco, mkcounters 1 0)].
Proof.
  destruct (import_reports_per_feed accept_all 200 fetch_mira_only lenina_db
              (fst (import_data accept_all 200 fetch_mira_only lenina_db))
              (mkreport [(NonEco, mkcounters 1 0)] (mkcounters 1 0)))
    as (H1 & H2 & _).
  - vm_compute. reflexivity.
  - split; [exact H1 | exact H2].
Defined.
